(** * diarize_speakers.py: a shallow embedding and its specification

    The script is a command-line wrapper around an external speaker
    diarization pipeline.  Everything the script itself does is modelled
    here: argument parsing, the file-existence check, the adapter
    [diarize_audio] with its [try]/[except] block, the construction of the
    result dictionary, and the two JSON serialisations.  The external
    library (model loading, device placement, inference) and the operating
    system (file existence, file writes) are a record of outcomes, the
    [world], that the script consults in the order the source does. *)

From Stdlib Require Import ZArith Ascii String DecimalString Floats.
From stdpp Require Import base gmap sets list strings.

Local Open Scope Z_scope.

(** ** Python exceptions and control flow *)

(** The exception classes that matter to the script.  [ModuleNotFoundError]
    is a subclass of [ImportError]; all of them derive from [Exception]. *)
Inductive exc_class :=
| ImportError
| ModuleNotFoundError
| ValueError
| TypeError
| OSError
| RuntimeError.

Record py_exception := PyExc { exc_type : exc_class; exc_str : string }.

(** [isinstance(e, ImportError)], the test of the guard around the imports. *)
Definition is_ImportError (e : py_exception) : bool :=
  match exc_type e with
  | ImportError | ModuleNotFoundError => true
  | _ => false
  end.

Inductive device := Cpu | Cuda.

(** What the process does to the outside, in program order. *)
Inductive event :=
| Stderr (line : string)            (* print(..., file=sys.stderr) *)
| Stdout (line : string)            (* print(...) *)
| Traceback (e : py_exception)      (* the interpreter reporting an uncaught exception on stderr *)
| PathExists (p : string)           (* Path(p).exists() *)
| FromPretrained (model : string)   (* Pipeline.from_pretrained(model, use_auth_token=None) *)
| PipelineTo (d : device)           (* pipeline.to(torch.device(...)) *)
| PipelineCall (audio : string) (kwargs : list (string * Z))  (* pipeline(audio, **kwargs) *)
| FileWrite (path content : string)  (* open(path, 'w') + json.dump, completed *)
| FileTruncated (path remains : string). (* open(path, 'w') worked, then the save
                                            raised: the file holds [remains] *)

(** How a computation ends: with a value, with an [Exception] instance
    propagating, or with [SystemExit] raised by [sys.exit(code)].
    [SystemExit] is not an [Exception], so [except Exception] lets it pass. *)
Inductive outcome (A : Type) :=
| Ret (a : A)
| Raise (e : py_exception)
| SysExit (code : Z).
Arguments Ret {A} a.
Arguments Raise {A} e.
Arguments SysExit {A} code.

(** A computation: the events it performed and how it ended. *)
Definition io (A : Type) : Type := list event * outcome A.

Definition io_ret {A} (a : A) : io A := ([], Ret a).

Definition io_bind {A B} (k : A → io B) (m : io A) : io B :=
  match m with
  | (t, Ret a) => let '(t', r) := k a in (t ++ t', r)
  | (t, Raise e) => (t, Raise e)
  | (t, SysExit c) => (t, SysExit c)
  end.

(** The statement sequencing [x ← m; k] and [m;; k] of stdpp's monad
    notations. *)
#[export] Instance io_mret : MRet io := @io_ret.
#[export] Instance io_mbind : MBind io := @io_bind.

Definition emit (e : event) : io unit := ([e], Ret tt).
Definition py_raise {A} (e : py_exception) : io A := ([], Raise e).
Definition sys_exit {A} (code : Z) : io A := ([], SysExit code).
Definition print_err (s : string) : io unit := emit (Stderr s).
Definition print_out (s : string) : io unit := emit (Stdout s).

(** [try: body except Exception as e: handler(e)] *)
Definition try_except {A} (body : io A) (handler : py_exception → io A) : io A :=
  match body with
  | (t, Raise e) => let '(t', r) := handler e in (t ++ t', r)
  | other => other
  end.

(** A library call that either succeeds or raises. *)
Definition may_raise (r : option py_exception) : io unit :=
  match r with
  | Some e => py_raise e
  | None => mret tt
  end.

(** ** Builtins: [int(str)], [str(int)] *)

(** [Py_ISSPACE] on ASCII: tab, LF, VT, FF, CR and space. *)
Definition py_isspace (c : ascii) : bool :=
  let n := N_of_ascii c in
  ((9 <=? n) && (n <=? 13) || (n =? 32))%N.

Definition digit_val (c : ascii) : option Z :=
  let n := N_of_ascii c in
  if ((48 <=? n) && (n <=? 57))%N then Some (Z.of_N n - 48) else None.

Fixpoint skip_spaces (s : string) : string :=
  match s with
  | String c s' => if py_isspace c then skip_spaces s' else s
  | EmptyString => EmptyString
  end.

(** The digit loop of [int(s, 10)]: decimal digits, single underscores
    between digits, then only white space up to the end. *)
Fixpoint scan_digits (acc : Z) (prev_underscore : bool) (s : string) : option Z :=
  match s with
  | EmptyString => if prev_underscore then None else Some acc
  | String c s' =>
      if Ascii.eqb c "_" then
        if prev_underscore then None else scan_digits acc true s'
      else
        match digit_val c with
        | Some d => scan_digits (10 * acc + d) false s'
        | None =>
            if prev_underscore then None
            else match skip_spaces s with
                 | EmptyString => Some acc
                 | _ => None
                 end
        end
  end.

Definition is_digit (c : ascii) : bool :=
  match digit_val c with Some _ => true | None => false end.

(** After the sign the text must start with a digit (an underscore may not
    lead), then [scan_digits] consumes the rest. *)
Definition scan_number (s : string) : option Z :=
  match s with
  | String c _ => if is_digit c then scan_digits 0 false s else None
  | EmptyString => None
  end.

(** A stand-in for [int] in the sample worlds below: decimal literals in
    ASCII, with ASCII white space around them.  The development itself
    takes [int] from the [world], whatever it accepts. *)
Definition ascii_int (s : string) : option Z :=
  match skip_spaces s with
  | String "+" s' => scan_number s'
  | String "-" s' => Z.opp <$> scan_number s'
  | s' => scan_number s'
  end.

(** [str(n)] / [repr(n)] of an [int].  The script prints lengths and the
    size of a set only, which the interpreter keeps below [2^63], far from
    the number of digits at which [str] starts to refuse. *)
Definition str_of_Z (n : Z) : string := NilZero.string_of_int (Z.to_int n).
Definition str_of_nat (n : nat) : string := str_of_Z (Z.of_nat n).

(** ** The [json] encoder *)

(** The values the script serialises.  A [dict] keeps insertion order and
    has [str] keys. *)
#[local] Set Warnings "-register-all".
Inductive json :=
| JInt (n : Z)
| JFloat (x : float)
| JStr (s : string)
| JList (items : list json)
| JDict (items : list (string * json)).

Definition dquote : ascii := "034"%char.
Definition backslash : ascii := "\"%char.

Definition hex_digit (n : N) : ascii :=
  if (n <? 10)%N then ascii_of_N (48 + n) else ascii_of_N (87 + n).

(** ['\\u{0:04x}'.format(n)] *)
Definition u_escape (n : N) : string :=
  String backslash (String "u"
    (String (hex_digit (n / 4096 mod 16)) (String (hex_digit (n / 256 mod 16))
    (String (hex_digit (n / 16 mod 16)) (String (hex_digit (n mod 16)) ""))))).

(** The replacement [ESCAPE_ASCII] makes for one character: backslash,
    the quote and everything outside [' '..'~'] is escaped.  A character of
    the model is a code point below 256, so the surrogate-pair branch of the
    encoder is never taken. *)
Definition escape_char (c : ascii) : string :=
  let n := N_of_ascii c in
  if Ascii.eqb c backslash then String backslash (String backslash "")
  else if Ascii.eqb c dquote then String backslash (String dquote "")
  else if (n =? 8)%N then String backslash "b"
  else if (n =? 12)%N then String backslash "f"
  else if (n =? 10)%N then String backslash "n"
  else if (n =? 13)%N then String backslash "r"
  else if (n =? 9)%N then String backslash "t"
  else if ((n <? 32) || (126 <? n))%N then u_escape n
  else String c "".

Fixpoint escape_all (s : string) : string :=
  match s with
  | EmptyString => EmptyString
  | String c s' => escape_char c +:+ escape_all s'
  end.

(** [py_encode_basestring_ascii] *)
Definition encode_basestring_ascii (s : string) : string :=
  String dquote (escape_all s +:+ String dquote "").

Definition newline : ascii := "010"%char.

Fixpoint spaces (n : nat) : string :=
  match n with
  | O => EmptyString
  | S n' => String " " (spaces n')
  end.

Section Encoder.

(** [float.__repr__] on finite floats: the shortest decimal text that
    reads back as the same float.  It is a builtin of the interpreter and
    stays a parameter of the development. *)
Variable float_repr : float → string.

(** [floatstr] of [json.encoder], with [allow_nan] at its default. *)
Definition floatstr (x : float) : string :=
  if negb (PrimFloat.eqb x x) then "NaN"
  else if PrimFloat.eqb x infinity then "Infinity"
  else if PrimFloat.eqb x neg_infinity then "-Infinity"
  else float_repr x.

(** ['\n' + ' ' * (indent * level)], when an indent is set. *)
Definition newline_indent (indent : option nat) (level : nat) : string :=
  match indent with
  | Some k => String newline (spaces (k * level))
  | None => EmptyString
  end.

(** [json.dump] and [json.dumps] leave the separators at their defaults:
    [(', ', ': ')] without an indent, [(',', ': ')] with one. *)
Definition item_separator (indent : option nat) : string :=
  match indent with
  | Some _ => ","
  | None => ", "
  end.
Definition key_separator : string := ": ".

(** The chunks of a non-empty container: the first one goes after the
    opening bracket and [newline_indent], every other after the
    separator. *)
Fixpoint join (sep : string) (chunks : list string) : string :=
  match chunks with
  | [] => EmptyString
  | [c] => c
  | c :: cs => c +:+ sep +:+ join sep cs
  end.

Definition container (opening closing : string) (indent : option nat)
    (level : nat) (chunks : list string) : string :=
  match chunks with
  | [] => opening +:+ closing
  | _ =>
      opening +:+ newline_indent indent (S level)
      +:+ join (item_separator indent +:+ newline_indent indent (S level)) chunks
      +:+ newline_indent indent level +:+ closing
  end.

(** [_iterencode] with its [_iterencode_list] and [_iterencode_dict],
    the chunks concatenated. *)
Fixpoint encode (indent : option nat) (level : nat) (v : json) : string :=
  match v with
  | JInt n => str_of_Z n
  | JFloat x => floatstr x
  | JStr s => encode_basestring_ascii s
  | JList items =>
      container "[" "]" indent level (map (encode indent (S level)) items)
  | JDict items =>
      container "{" "}" indent level
        (map (λ kv, encode_basestring_ascii (fst kv) +:+ key_separator
                    +:+ encode indent (S level) (snd kv)) items)
  end.

(** [json.dumps(v)] and the text [json.dump(v, f, indent=2)] writes. *)
Definition dumps (v : json) : string := encode None 0 v.
Definition dump_indent2 (v : json) : string := encode (Some 2%nat) 0 v.

End Encoder.

(** ** The data of the script *)

(** One item of [diarization.itertracks(yield_label=True)]: the turn with
    its two time stamps and the speaker label. *)
Record track := Track { turn_start : float; turn_end : float; label : string }.

(** [{'start': ..., 'end': ..., 'speaker': ...}] *)
Record segment := Segment { start : float; end_ : float; speaker : string }.

(** [{'audio_file': ..., 'num_speakers': ..., 'segments': ...}] *)
Record result := Result {
  audio_file : string;
  num_speakers : nat;
  segments : list segment
}.

(** What the pipeline returns: the tracks its iteration yields, and the
    exception that ends the iteration early, if any. *)
Record annotation := Annotation {
  itertracks : list track;
  itertracks_error : option py_exception
}.

(** What [Path(p).exists()] does: it answers, or it raises the [OSError]
    that is not one of "no such file". *)
Inductive exists_result :=
| Raises (e : py_exception)
| Answers (b : bool).
Coercion Answers : bool >-> exists_result.

(** Everything outside the script: the interpreter's [int], the outcome of
    the imports, the file system, the accelerator and the pipeline
    library.  The device the pipeline sits on is part of what its call
    depends on.
    - [py_int s] is [int(s)], [None] for the [ValueError] it raises;
    - [write_error path text] is the exception that [open(path, 'w')],
      [json.dump] or the closing of the file raises, if any;
    - [left_on_failure path text] says what such a failure leaves behind:
      [None] when [open] itself raised and the file was not touched,
      [Some remains] when the file had been opened, hence created or
      truncated, and holds [remains] afterwards. *)
Record world := World {
  py_int : string → option Z;
  import_error : option py_exception;
  path_exists : string → exists_result;
  from_pretrained_error : option py_exception;
  cuda_is_available : bool;
  to_error : device → option py_exception;
  pipeline : device → string → list (string * Z) → py_exception + annotation;
  write_error : string → string → option py_exception;
  left_on_failure : string → string → option string
}.

(** [if x: params[name] = x] for an optional [int]: [None] and [0] are
    falsy, every other integer is stored. *)
Definition kwarg (name : string) (x : option Z) : list (string * Z) :=
  match x with
  | Some n => if n =? 0 then [] else [(name, n)]
  | None => []
  end.

(** [diarization_params], filled as lines 50-54 do. *)
Definition diarization_params (min_speakers max_speakers : option Z) : list (string * Z) :=
  kwarg "min_speakers" min_speakers ++ kwarg "max_speakers" max_speakers.

(** [if output_file:] is taken for a non-empty string only. *)
Definition truthy_path (output_file : option string) : option string :=
  match output_file with
  | Some path => if String.eqb path "" then None else Some path
  | None => None
  end.

Definition segment_of_track (t : track) : segment :=
  {| start := turn_start t; end_ := turn_end t; speaker := label t |}.

(** [len(set(seg['speaker'] for seg in segments))] *)
Definition count_speakers (segs : list segment) : nat :=
  size (list_to_set (speaker <$> segs) : gset string).

Definition make_result (audio : string) (segs : list segment) : result :=
  {| audio_file := audio; num_speakers := count_speakers segs; segments := segs |}.

Definition json_of_segment (s : segment) : json :=
  JDict [("start", JFloat (start s)); ("end", JFloat (end_ s)); ("speaker", JStr (speaker s))].

Definition json_of_result (r : result) : json :=
  JDict [("audio_file", JStr (audio_file r));
         ("num_speakers", JInt (Z.of_nat (num_speakers r)));
         ("segments", JList (json_of_segment <$> segments r))].

Record process := Process { trace : list event; exit_status : Z }.

Definition model_name : string := "pyannote/speaker-diarization-3.1".

(** What a save that raises has done to the file before. *)
Definition failed_save_events (w : world) (path text : string) : list event :=
  match left_on_failure w path text with
  | Some remains => [FileTruncated path remains]
  | None => []
  end.

Definition failed_save (w : world) (path text : string) : io unit :=
  (failed_save_events w path text, Ret tt).

Section Script.

Variable float_repr : float → string.

(** The body of the [try] block of [diarize_audio], lines 37-79. *)
Definition diarize_body (w : world) (audio : string) (output_file : option string)
    (min_speakers max_speakers : option Z) : io result :=
  emit (FromPretrained model_name);;
  may_raise (from_pretrained_error w);;
  dev ← (if cuda_is_available w
         then emit (PipelineTo Cuda);; may_raise (to_error w Cuda);; mret Cuda
         else mret Cpu);
  print_err ("Processing: " +:+ audio);;
  let params := diarization_params min_speakers max_speakers in
  emit (PipelineCall audio params);;
  match pipeline w dev audio params with
  | inl e => py_raise e
  | inr diarization =>
      may_raise (itertracks_error diarization);;
      let segs := segment_of_track <$> itertracks diarization in
      let res := make_result audio segs in
      match truthy_path output_file with
      | Some path =>
          let text := dump_indent2 float_repr (json_of_result res) in
          match write_error w path text with
          | Some e => failed_save w path text;; py_raise e
          | None => emit (FileWrite path text)
          end;;
          print_err ("Saved diarization to: " +:+ path)
      | None => mret tt
      end;;
      mret res
  end.

(** [diarize_audio]: any [Exception] of the body is reported and turned
    into [sys.exit(1)]. *)
Definition diarize_audio (w : world) (audio : string) (output_file : option string)
    (min_speakers max_speakers : option Z) : io result :=
  try_except
    (diarize_body w audio output_file min_speakers max_speakers)
    (λ e, print_err ("ERROR: Diarization failed: " +:+ exc_str e);; sys_exit 1).

(** [int(sys.argv[i]) if len(sys.argv) > i else None] *)
Definition int_arg (w : world) (argv : list string) (i : nat) : io (option Z) :=
  match argv !! i with
  | None => mret None
  | Some s =>
      match py_int w s with
      | Some n => mret (Some n)
      | None =>
          py_raise (PyExc ValueError
                      ("invalid literal for int() with base 10: '" +:+ s +:+ "'"))
      end
  end.

Definition usage : string :=
  "Usage: diarize_speakers.py <audio_file> [output_json] [min_speakers] [max_speakers]".
Definition usage_example : string :=
  "Example: diarize_speakers.py recording.mp3 diarization.json 2 4".

Definition main (w : world) (argv : list string) : io unit :=
  match argv !! 1%nat with
  | None =>                                   (* len(sys.argv) < 2 *)
      print_err usage;; print_err usage_example;; sys_exit 1
  | Some audio =>
      let output_file := argv !! 2%nat in
      min_speakers ← int_arg w argv 3;
      max_speakers ← int_arg w argv 4;
      emit (PathExists audio);;
      match path_exists w audio with
      | Raises e => py_raise e                  (* no [try] around it *)
      | Answers false =>
          print_err ("ERROR: Audio file not found: " +:+ audio);; sys_exit 1
      | Answers true =>
          res ← diarize_audio w audio output_file min_speakers max_speakers;
          print_err (String newline "Diarization complete!");;
          print_err ("Detected " +:+ str_of_nat (num_speakers res) +:+ " speakers");;
          print_err ("Total segments: " +:+ str_of_nat (length (segments res)));;
          print_out (dumps float_repr (json_of_result res))
      end
  end.

(** The module from top to bottom: the guarded imports, then [main()]. *)
Definition script (w : world) (argv : list string) : io unit :=
  match import_error w with
  | Some e =>
      if is_ImportError e then
        print_err "ERROR: pyannote.audio not installed. Run: pip install pyannote.audio torch";;
        sys_exit 1
      else py_raise e
  | None => main w argv
  end.

(** The finished process.  An uncaught exception makes the interpreter
    print a traceback on standard error and exit with status 1;
    [sys.exit(c)] exits with [c]; falling off the end exits with 0. *)
Definition run (w : world) (argv : list string) : process :=
  match script w argv with
  | (t, Ret _) => {| trace := t; exit_status := 0 |}
  | (t, SysExit c) => {| trace := t; exit_status := c |}
  | (t, Raise e) => {| trace := t ++ [Traceback e]; exit_status := 1 |}
  end.

(** The lines [main] prints after a successful [diarize_audio]. *)
Definition summary (r : result) : list event :=
  [ Stderr (String newline "Diarization complete!");
    Stderr ("Detected " +:+ str_of_nat (num_speakers r) +:+ " speakers");
    Stderr ("Total segments: " +:+ str_of_nat (length (segments r)));
    Stdout (dumps float_repr (json_of_result r)) ].

Definition import_message : string :=
  "ERROR: pyannote.audio not installed. Run: pip install pyannote.audio torch".

(** The eight ways a run can go, each with the conditions that select it
    and the process it leaves behind. *)
Inductive behaviour (w : world) (argv : list string) : process → Prop :=
| import_failed e :
    import_error w = Some e → is_ImportError e = true →
    behaviour w argv (Process [Stderr import_message] 1)
| import_crashed e :
    import_error w = Some e → is_ImportError e = false →
    behaviour w argv (Process [Traceback e] 1)
| missing_arguments :
    import_error w = None → argv !! 1%nat = None →
    behaviour w argv (Process [Stderr usage; Stderr usage_example] 1)
| bad_integer audio e :
    import_error w = None → argv !! 1%nat = Some audio →
    (int_arg w argv 3 = ([], Raise e)
     ∨ (∃ mn, int_arg w argv 3 = ([], Ret mn)) ∧ int_arg w argv 4 = ([], Raise e)) →
    exc_type e = ValueError →
    behaviour w argv (Process [Traceback e] 1)
| missing_file audio mn mx :
    import_error w = None → argv !! 1%nat = Some audio →
    int_arg w argv 3 = ([], Ret mn) → int_arg w argv 4 = ([], Ret mx) →
    path_exists w audio = false →
    behaviour w argv
      (Process [PathExists audio; Stderr ("ERROR: Audio file not found: " +:+ audio)] 1)
| diarization_failed audio mn mx t e :
    import_error w = None → argv !! 1%nat = Some audio →
    int_arg w argv 3 = ([], Ret mn) → int_arg w argv 4 = ([], Ret mx) →
    path_exists w audio = true →
    diarize_body w audio (argv !! 2%nat) mn mx = (t, Raise e) →
    behaviour w argv
      (Process (PathExists audio :: t
                ++ [Stderr ("ERROR: Diarization failed: " +:+ exc_str e)]) 1)
| succeeded audio mn mx t r :
    import_error w = None → argv !! 1%nat = Some audio →
    int_arg w argv 3 = ([], Ret mn) → int_arg w argv 4 = ([], Ret mx) →
    path_exists w audio = true →
    diarize_body w audio (argv !! 2%nat) mn mx = (t, Ret r) →
    behaviour w argv (Process (PathExists audio :: t ++ summary r) 0)
| exists_raised audio mn mx e :
    import_error w = None → argv !! 1%nat = Some audio →
    int_arg w argv 3 = ([], Ret mn) → int_arg w argv 4 = ([], Ret mx) →
    path_exists w audio = Raises e →
    behaviour w argv (Process [PathExists audio; Traceback e] 1).

End Script.

(** ** Observations on a trace *)

Definition stdout_of (t : list event) : list string :=
  omap (λ e, match e with Stdout s => Some s | _ => None end) t.

(** What reaches standard error: the script's own lines and the
    interpreter's traceback. *)
Definition on_stderr (e : event) : bool :=
  match e with
  | Stderr _ | Traceback _ => true
  | _ => false
  end.

Definition files_written (t : list event) : list (string * string) :=
  omap (λ e, match e with FileWrite p c => Some (p, c) | _ => None end) t.

Definition pipeline_calls (t : list event) : list (string * list (string * Z)) :=
  omap (λ e, match e with PipelineCall a k => Some (a, k) | _ => None end) t.

(** Any use of the pipeline library: loading, moving or calling it. *)
Definition touches_pipeline (e : event) : bool :=
  match e with
  | FromPretrained _ | PipelineTo _ | PipelineCall _ _ => true
  | _ => false
  end.

Definition checks_path (e : event) : bool :=
  match e with
  | PathExists _ => true
  | _ => false
  end.

(** ** Shapes of traces *)

(** The device the pipeline runs on when it is called. *)
Definition device_of (w : world) : device :=
  if cuda_is_available w then Cuda else Cpu.

(** The events of a body that gets as far as calling the pipeline. *)
Definition call_prefix (w : world) (audio : string) (params : list (string * Z)) : list event :=
  FromPretrained model_name
  :: (if cuda_is_available w then [PipelineTo Cuda] else [])
  ++ [Stderr ("Processing: " +:+ audio); PipelineCall audio params].

(** The events of the optional save. *)
Definition save_events (output_file : option string) (text : string) : list event :=
  match truthy_path output_file with
  | Some path => [FileWrite path text; Stderr ("Saved diarization to: " +:+ path)]
  | None => []
  end.

Definition is_load (e : event) : bool :=
  match e with FromPretrained _ => true | _ => false end.
Definition is_call (e : event) : bool :=
  match e with PipelineCall _ _ => true | _ => false end.

(** Number of events of a kind. *)
Definition count_events (f : event → bool) (t : list event) : nat :=
  length (List.filter f t).

(** The value [diarize_audio] returns, if it returns. *)
Definition returned {A} (m : io A) : option A :=
  match m.2 with
  | Ret a => Some a
  | _ => None
  end.

(** ** Comparing JSON texts *)

(** Reading a JSON text: outside a string literal, inside one, or right
    after a backslash inside one. *)
Inductive lex_state := Outside | Inside | Escaped.

(** The white space JSON allows between tokens. *)
Definition json_space (c : ascii) : bool :=
  let n := N_of_ascii c in
  ((n =? 32) || (n =? 9) || (n =? 10) || (n =? 13))%N.

Definition lex_step (st : lex_state) (c : ascii) : lex_state :=
  match st with
  | Outside => if Ascii.eqb c dquote then Inside else Outside
  | Inside =>
      if Ascii.eqb c backslash then Escaped
      else if Ascii.eqb c dquote then Outside else Inside
  | Escaped => Inside
  end.

Definition kept (st : lex_state) (c : ascii) : bool :=
  match st with
  | Outside => negb (json_space c)
  | _ => true
  end.

(** The text without the white space between its tokens; string literals
    are kept character for character. *)
Fixpoint strip_from (st : lex_state) (s : string) : string :=
  match s with
  | EmptyString => EmptyString
  | String c s' =>
      if kept st c then String c (strip_from (lex_step st c) s')
      else strip_from (lex_step st c) s'
  end.

Fixpoint lex_end (st : lex_state) (s : string) : lex_state :=
  match s with
  | EmptyString => st
  | String c s' => lex_end (lex_step st c) s'
  end.

(** Two JSON texts are the same up to indentation and white space when
    they agree after [strip_whitespace]. *)
Definition strip_whitespace (s : string) : string := strip_from Outside s.

(** [json.dumps(v, separators=(',', ':'))]: the text with no white space
    between tokens at all. *)
Fixpoint compact (float_repr : float → string) (v : json) : string :=
  match v with
  | JInt n => str_of_Z n
  | JFloat x => floatstr float_repr x
  | JStr s => encode_basestring_ascii s
  | JList items => "[" +:+ join "," (map (compact float_repr) items) +:+ "]"
  | JDict items =>
      "{" +:+ join ","
                (map (λ kv, encode_basestring_ascii (fst kv) +:+ ":"
                            +:+ compact float_repr (snd kv)) items)
      +:+ "}"
  end.

Fixpoint all_chars (f : ascii → bool) (s : string) : bool :=
  match s with
  | EmptyString => true
  | String c s' => f c && all_chars f s'
  end.

(** The characters [float.__repr__] produces for a finite float: digits,
    the point, the exponent mark and the signs. *)
Definition float_char (c : ascii) : bool :=
  is_digit c || Ascii.eqb c "." || Ascii.eqb c "e" || Ascii.eqb c "-" || Ascii.eqb c "+".

Definition plain_char (c : ascii) : bool :=
  negb (json_space c) && negb (Ascii.eqb c dquote).

(** A piece of text that [strip_whitespace] leaves alone, and one that it
    removes. *)
Definition solid (s : string) : Prop :=
  strip_from Outside s = s ∧ lex_end Outside s = Outside.
Definition blank (s : string) : Prop :=
  strip_from Outside s = "" ∧ lex_end Outside s = Outside.

(** A text that strips to [s'] and ends outside a string literal. *)
Definition strips_to (s s' : string) : Prop :=
  strip_from Outside s = s' ∧ lex_end Outside s = Outside.

(** ** Sample worlds *)

Definition sample_tracks : list track :=
  [ Track 0.5 2.25 "SPEAKER_00"; Track 2.5 4 "SPEAKER_01"; Track 4.5 6 "SPEAKER_00" ].

(** Everything works: imports succeed, the file exists, no accelerator,
    the pipeline yields [sample_tracks] whatever it is asked. *)
Definition good_world : world :=
  {| py_int := ascii_int;
     import_error := None;
     path_exists := λ _, true;
     from_pretrained_error := None;
     cuda_is_available := false;
     to_error := λ _, None;
     pipeline := λ _ _ _, inr (Annotation sample_tracks None);
     write_error := λ _ _, None;
     left_on_failure := λ _ _, None |}.

(** [float.__repr__] tabulated on the time stamps of [sample_tracks]. *)
Definition sample_repr (x : float) : string :=
  if PrimFloat.eqb x 0.5 then "0.5"
  else if PrimFloat.eqb x 2.25 then "2.25"
  else if PrimFloat.eqb x 2.5 then "2.5"
  else if PrimFloat.eqb x 4 then "4.0"
  else if PrimFloat.eqb x 4.5 then "4.5"
  else if PrimFloat.eqb x 6 then "6.0"
  else "0.0".

(** The accelerator is present but moving the pipeline to it fails. *)
Definition gpu_failing_world : world :=
  {| py_int := ascii_int;
     import_error := None;
     path_exists := λ _, true;
     from_pretrained_error := None;
     cuda_is_available := true;
     to_error := λ _, Some (PyExc RuntimeError "CUDA out of memory");
     pipeline := λ _ _ _, inr (Annotation sample_tracks None);
     write_error := λ _ _, None;
     left_on_failure := λ _ _, None |}.

(** The world [w] with the accelerator present ([true]) or absent ([false]). *)
Definition set_cuda (b : bool) (w : world) : world :=
  {| py_int := py_int w;
     import_error := import_error w;
     path_exists := path_exists w;
     from_pretrained_error := from_pretrained_error w;
     cuda_is_available := b;
     to_error := to_error w;
     pipeline := pipeline w;
     write_error := write_error w;
     left_on_failure := left_on_failure w |}.

(** The output path cannot be written. *)
Definition readonly_world : world :=
  {| py_int := ascii_int;
     import_error := None;
     path_exists := λ _, true;
     from_pretrained_error := None;
     cuda_is_available := false;
     to_error := λ _, None;
     pipeline := λ _ _ _, inr (Annotation sample_tracks None);
     write_error := λ _ _, Some (PyExc OSError "[Errno 13] Permission denied: '/out.json'");
     left_on_failure := λ _ _, None |}.

(** No file exists. *)
Definition empty_disk_world : world :=
  {| py_int := ascii_int;
     import_error := None;
     path_exists := λ _, false;
     from_pretrained_error := None;
     cuda_is_available := false;
     to_error := λ _, None;
     pipeline := λ _ _ _, inr (Annotation sample_tracks None);
     write_error := λ _ _, None;
     left_on_failure := λ _ _, None |}.

(** The world in which the pipeline call itself raises [e]. *)
Definition with_pipeline_error (e : py_exception) (w : world) : world :=
  {| py_int := py_int w;
     import_error := import_error w;
     path_exists := path_exists w;
     from_pretrained_error := from_pretrained_error w;
     cuda_is_available := cuda_is_available w;
     to_error := to_error w;
     pipeline := λ _ _ _, inl e;
     write_error := write_error w;
     left_on_failure := left_on_failure w |}.

(** ** Worlds that differ in one answer *)

Definition with_write_error (f : string → string → option py_exception) (w : world) : world :=
  {| py_int := py_int w;
     import_error := import_error w;
     path_exists := path_exists w;
     from_pretrained_error := from_pretrained_error w;
     cuda_is_available := cuda_is_available w;
     to_error := to_error w;
     pipeline := pipeline w;
     write_error := f;
     left_on_failure := left_on_failure w |}.

Definition with_to_error (f : device → option py_exception) (w : world) : world :=
  {| py_int := py_int w;
     import_error := import_error w;
     path_exists := path_exists w;
     from_pretrained_error := from_pretrained_error w;
     cuda_is_available := cuda_is_available w;
     to_error := f;
     pipeline := pipeline w;
     write_error := write_error w;
     left_on_failure := left_on_failure w |}.

(** The pipeline finds no speech at all. *)
Definition silent_world : world :=
  {| py_int := ascii_int;
     import_error := None;
     path_exists := λ _, true;
     from_pretrained_error := None;
     cuda_is_available := false;
     to_error := λ _, None;
     pipeline := λ _ _ _, inr (Annotation [] None);
     write_error := λ _ _, None;
     left_on_failure := λ _ _, None |}.

(** The model cannot be loaded. *)
Definition offline_world : world :=
  {| py_int := ascii_int;
     import_error := None;
     path_exists := λ _, true;
     from_pretrained_error := Some (PyExc OSError "Connection error");
     cuda_is_available := true;
     to_error := λ _, None;
     pipeline := λ _ _ _, inr (Annotation sample_tracks None);
     write_error := λ _ _, None;
     left_on_failure := λ _ _, None |}.

(** The iteration over the tracks breaks after they were yielded. *)
Definition breaking_world : world :=
  {| py_int := ascii_int;
     import_error := None;
     path_exists := λ _, true;
     from_pretrained_error := None;
     cuda_is_available := false;
     to_error := λ _, None;
     pipeline := λ _ _ _,
       inr (Annotation sample_tracks (Some (PyExc RuntimeError "iteration failed")));
     write_error := λ _ _, None;
     left_on_failure := λ _ _, None |}.

(** The pipeline library is not installed. *)
Definition bare_world : world :=
  {| py_int := ascii_int;
     import_error := Some (PyExc ModuleNotFoundError "No module named 'pyannote'");
     path_exists := λ _, true;
     from_pretrained_error := None;
     cuda_is_available := false;
     to_error := λ _, None;
     pipeline := λ _ _ _, inr (Annotation sample_tracks None);
     write_error := λ _ _, None;
     left_on_failure := λ _ _, None |}.

(** The events the body of [diarize_audio] can perform. *)
Definition body_event (e : event) : bool :=
  match e with
  | FromPretrained _ | PipelineTo Cuda | Stderr _ | PipelineCall _ _
  | FileWrite _ _ | FileTruncated _ _ => true
  | _ => false
  end.

(** ** Characters of the output *)

(** [' '..'~'], what [ensure_ascii] leaves in a text. *)
Definition printable (c : ascii) : bool :=
  let n := N_of_ascii c in
  ((32 <=? n) && (n <=? 126))%N.

Definition printable_or_newline (c : ascii) : bool :=
  printable c || Ascii.eqb c newline.

(** The save of the output fails after the file was opened: it is left
    empty. *)
Definition full_disk_world : world :=
  {| py_int := ascii_int;
     import_error := None;
     path_exists := λ _, true;
     from_pretrained_error := None;
     cuda_is_available := false;
     to_error := λ _, None;
     pipeline := λ _ _ _, inr (Annotation sample_tracks None);
     write_error := λ _ _, Some (PyExc OSError "[Errno 28] No space left on device");
     left_on_failure := λ _ _, Some "" |}.

(** The accelerator works, and the pipeline tells two speakers apart on
    it where it hears a single one on the processor. *)
Definition device_sensitive_world : world :=
  {| py_int := ascii_int;
     import_error := None;
     path_exists := λ _, true;
     from_pretrained_error := None;
     cuda_is_available := true;
     to_error := λ _, None;
     pipeline := λ d _ _,
       match d with
       | Cuda => inr (Annotation [Track 0.5 2.25 "SPEAKER_00"; Track 2.5 4 "SPEAKER_01"] None)
       | Cpu => inr (Annotation [Track 0.5 4 "SPEAKER_00"] None)
       end;
     write_error := λ _ _, None;
     left_on_failure := λ _ _, None |}.

(** The existence check itself raises. *)
Definition unreadable_world : world :=
  {| py_int := ascii_int;
     import_error := None;
     path_exists := λ _, Raises (PyExc OSError "[Errno 36] File name too long");
     from_pretrained_error := None;
     cuda_is_available := false;
     to_error := λ _, None;
     pipeline := λ _ _ _, inr (Annotation sample_tracks None);
     write_error := λ _ _, None;
     left_on_failure := λ _ _, None |}.

(** ** The JSON document of a result, written out *)

(** A key or another text without anything to escape, in quotes. *)
Definition quoted (s : string) : string := String dquote (s +:+ String dquote "").

(** [{"start":S,"end":E,"speaker":L}] with the two times as [json] prints
    floats and the label as a JSON string. *)
Definition segment_text (float_repr : float → string) (s : segment) : string :=
  "{" +:+ join ","
            [ quoted "start" +:+ ":" +:+ floatstr float_repr (start s);
              quoted "end" +:+ ":" +:+ floatstr float_repr (end_ s);
              quoted "speaker" +:+ ":" +:+ encode_basestring_ascii (speaker s) ]
  +:+ "}".

(** [{"audio_file":A,"num_speakers":N,"segments":[...]}]: the three keys
    of the result in this order, the path as a JSON string, the count in
    decimal, the segments in their order, and no white space between the
    tokens. *)
Definition result_text (float_repr : float → string) (r : result) : string :=
  "{" +:+ join ","
            [ quoted "audio_file" +:+ ":" +:+ encode_basestring_ascii (audio_file r);
              quoted "num_speakers" +:+ ":" +:+ str_of_nat (num_speakers r);
              quoted "segments" +:+ ":"
              +:+ ("[" +:+ join "," (map (segment_text float_repr) (segments r)) +:+ "]") ]
  +:+ "}".

(** A float for which [floatstr] asks [float.__repr__]. *)
Definition finite (x : float) : Prop :=
  PrimFloat.eqb x x = true
  ∧ PrimFloat.eqb x infinity = false
  ∧ PrimFloat.eqb x neg_infinity = false.

(** Events that change the output file. *)
Definition touches_file (e : event) : bool :=
  match e with
  | FileWrite _ _ | FileTruncated _ _ => true
  | _ => false
  end.

(** ** The model on examples *)

Example ascii_int_ex1 : ascii_int " 42 " = Some 42. Proof. reflexivity. Qed.
Example ascii_int_ex2 : ascii_int "-1_000" = Some (-1000). Proof. reflexivity. Qed.
Example ascii_int_ex3 : ascii_int "two" = None. Proof. reflexivity. Qed.
Example ascii_int_ex4 : ascii_int "1__0" = None. Proof. reflexivity. Qed.
Example ascii_int_ex5 : ascii_int "" = None. Proof. reflexivity. Qed.
Example ascii_int_ex6 : ascii_int "3.5" = None. Proof. reflexivity. Qed.
Example str_of_Z_ex : str_of_Z (-120) = "-120" ∧ str_of_Z 0 = "0". Proof. split; reflexivity. Qed.

Example dumps_ex :
  dumps (λ _, "1.5") (JDict [("a", JList [JInt 1; JFloat 1.5%float]); ("b", JStr "x y")])
  = String.concat "" ["{"; String dquote "a"; String dquote ": [1, 1.5], ";
                      String dquote "b"; String dquote ": ";
                      String dquote "x y"; String dquote "}"].
Proof. reflexivity. Qed.

Example dump_indent2_ex :
  dump_indent2 (λ _, "1.5") (JDict [("a", JList [JInt 1; JList []])])
  = String.concat (String newline "")
      [ "{";
        String.concat "" ["  "; String dquote "a"; String dquote ": ["];
        "    1,";
        "    []";
        "  ]";
        "}" ].
Proof. reflexivity. Qed.

(** ** Structure of [diarize_audio] *)

Arguments dumps : simpl never.
Arguments dump_indent2 : simpl never.
Arguments String.append : simpl never.
Arguments count_speakers : simpl never.

Ltac io_unfold :=
  unfold mbind, mret, io_mbind, io_mret, io_bind, io_ret,
    emit, may_raise, py_raise, print_err, print_out, sys_exit in *.

Section Structure.

Variable float_repr : float → string.
Variable w : world.
Variables (audio : string) (output_file : option string).
Variables (min_speakers max_speakers : option Z).

Let params := diarization_params min_speakers max_speakers.
Let body := diarize_body float_repr w audio output_file min_speakers max_speakers.

(** The body never calls [sys.exit]. *)
Lemma diarize_body_no_exit t c : body ≠ (t, SysExit c).
Proof.
  subst body. unfold diarize_body. io_unfold.
  destruct (from_pretrained_error w); simpl; [discriminate|].
  destruct (cuda_is_available w); simpl.
  - destruct (to_error w Cuda); simpl; [discriminate|].
    destruct (pipeline w Cuda audio _) as [e|d]; simpl; [discriminate|].
    destruct (itertracks_error d); simpl; [discriminate|].
    destruct (truthy_path output_file); simpl; [|discriminate].
    destruct (write_error w _ _); simpl; discriminate.
  - destruct (pipeline w Cpu audio _) as [e|d]; simpl; [discriminate|].
    destruct (itertracks_error d); simpl; [discriminate|].
    destruct (truthy_path output_file); simpl; [|discriminate].
    destruct (write_error w _ _); simpl; discriminate.
Qed.

(** When the body returns, every step before worked, and the value and
    the events are these. *)
Lemma diarize_body_Ret_inv t r :
  body = (t, Ret r) →
  ∃ d,
    from_pretrained_error w = None
    ∧ (cuda_is_available w = true → to_error w Cuda = None)
    ∧ pipeline w (device_of w) audio params = inr d
    ∧ itertracks_error d = None
    ∧ r = make_result audio (segment_of_track <$> itertracks d)
    ∧ (∀ path, truthy_path output_file = Some path →
         write_error w path (dump_indent2 float_repr (json_of_result r)) = None)
    ∧ t = call_prefix w audio params
          ++ save_events output_file (dump_indent2 float_repr (json_of_result r)).
Proof.
  subst body params. unfold diarize_body, device_of, call_prefix, save_events. io_unfold.
  destruct (from_pretrained_error w); simpl; [discriminate|].
  destruct (cuda_is_available w); simpl.
  - destruct (to_error w Cuda); simpl; [discriminate|].
    destruct (pipeline w Cuda audio _) as [e|d]; simpl; [discriminate|].
    destruct (itertracks_error d) eqn:Hit; simpl; [discriminate|].
    destruct (truthy_path output_file) as [path|] eqn:Hp; simpl.
    + destruct (write_error w _ _) eqn:Hw; simpl; [discriminate|].
      intros [= <- <-]. exists d. repeat split; try done.
      intros ? [= <-]. done.
    + intros [= <- <-]. exists d. repeat split; done.
  - destruct (pipeline w Cpu audio _) as [e|d]; simpl; [discriminate|].
    destruct (itertracks_error d) eqn:Hit; simpl; [discriminate|].
    destruct (truthy_path output_file) as [path|] eqn:Hp; simpl.
    + destruct (write_error w _ _) eqn:Hw; simpl; [discriminate|].
      intros [= <- <-]. exists d. repeat split; try done.
      intros ? [= <-]. done.
    + intros [= <- <-]. exists d. repeat split; done.
Qed.

End Structure.

Section Behaviour.

Variable float_repr : float → string.

#[local] Abbreviation body := (diarize_body float_repr).

(** [try]/[except] around a body that never exits: a returned value
    passes through, an exception becomes the error line and
    [sys.exit(1)]. *)
Lemma diarize_audio_cases w audio out mn mx :
  (∃ t r, body w audio out mn mx = (t, Ret r)
          ∧ diarize_audio float_repr w audio out mn mx = (t, Ret r))
  ∨ (∃ t e, body w audio out mn mx = (t, Raise e)
            ∧ diarize_audio float_repr w audio out mn mx
              = (t ++ [Stderr ("ERROR: Diarization failed: " +:+ exc_str e)], SysExit 1)).
Proof.
  unfold diarize_audio, try_except.
  destruct (body w audio out mn mx) as [t [r|e|c]] eqn:Hb.
  - left. eauto.
  - right. exists t, e. io_unfold. simpl. by rewrite ?app_nil_r.
  - by apply diarize_body_no_exit in Hb.
Qed.

Lemma diarize_audio_Ret_inv w audio out mn mx t r :
  diarize_audio float_repr w audio out mn mx = (t, Ret r) →
  body w audio out mn mx = (t, Ret r).
Proof.
  destruct (diarize_audio_cases w audio out mn mx) as [(t'&r'&Hb&->)|(t'&e&Hb&->)];
    [|discriminate].
  by intros [= <- <-].
Qed.

(** Where an exception of the body can come from: the load, the move, the
    pipeline call or the iteration over its tracks, or the save. *)
Lemma diarize_body_Raise_inv w audio out mn mx t e :
  body w audio out mn mx = (t, Raise e) →
  let params := diarization_params mn mx in
  (from_pretrained_error w = Some e ∧ t = [FromPretrained model_name])
  ∨ (cuda_is_available w = true ∧ to_error w Cuda = Some e
     ∧ t = [FromPretrained model_name; PipelineTo Cuda])
  ∨ (t = call_prefix w audio params
     ∧ (pipeline w (device_of w) audio params = inl e
        ∨ ∃ d, pipeline w (device_of w) audio params = inr d
               ∧ itertracks_error d = Some e))
  ∨ (∃ d path,
       pipeline w (device_of w) audio params = inr d
       ∧ itertracks_error d = None
       ∧ truthy_path out = Some path
       ∧ write_error w path
           (dump_indent2 float_repr
              (json_of_result (make_result audio (segment_of_track <$> itertracks d))))
         = Some e
       ∧ t = call_prefix w audio params
             ++ failed_save_events w path
                  (dump_indent2 float_repr
                     (json_of_result
                        (make_result audio (segment_of_track <$> itertracks d))))).
Proof.
  unfold diarize_body, device_of, call_prefix, failed_save. io_unfold.
  destruct (from_pretrained_error w) eqn:Hfp; simpl.
  { intros [= <- <-]. by left. }
  destruct (cuda_is_available w); simpl.
  - destruct (to_error w Cuda); simpl.
    { intros [= <- <-]. right; left. done. }
    destruct (pipeline w Cuda audio _) as [e'|d]; simpl.
    { intros [= <- <-]. right; right; left. split; [done|by left]. }
    destruct (itertracks_error d) eqn:Hit; simpl.
    { intros [= <- <-]. right; right; left. split; [done|]. right. by exists d. }
    destruct (truthy_path out) as [path|] eqn:Hp; simpl; [|discriminate].
    destruct (write_error w _ _) eqn:Hw; simpl; [|discriminate].
    intros [= <- <-]. do 3 right. exists d, path. rewrite ?app_nil_r. by split_and!.
  - destruct (pipeline w Cpu audio _) as [e'|d]; simpl.
    { intros [= <- <-]. right; right; left. split; [done|by left]. }
    destruct (itertracks_error d) eqn:Hit; simpl.
    { intros [= <- <-]. right; right; left. split; [done|]. right. by exists d. }
    destruct (truthy_path out) as [path|] eqn:Hp; simpl; [|discriminate].
    destruct (write_error w _ _) eqn:Hw; simpl; [|discriminate].
    intros [= <- <-]. do 3 right. exists d, path. rewrite ?app_nil_r. by split_and!.
Qed.

(** [int(sys.argv[i])] prints nothing and never exits. *)
Lemma int_arg_cases w argv i :
  (∃ x, int_arg w argv i = ([], Ret x)
        ∧ (x = None ∧ argv !! i = None
           ∨ ∃ s n, argv !! i = Some s ∧ py_int w s = Some n ∧ x = Some n))
  ∨ (∃ s e, argv !! i = Some s ∧ py_int w s = None ∧ exc_type e = ValueError
            ∧ int_arg w argv i = ([], Raise e)).
Proof.
  unfold int_arg. destruct (argv !! i) as [s|]; [|left; eauto].
  destruct (py_int w s) as [n|] eqn:Hs.
  - left. exists (Some n). split; [done|]. right. eauto.
  - right. eexists s, _. repeat split; done.
Qed.

Lemma run_behaviour w argv : behaviour float_repr w argv (run float_repr w argv).
Proof.
  unfold run, script.
  destruct (import_error w) as [e|] eqn:Himp.
  { destruct (is_ImportError e) eqn:He.
    - io_unfold. simpl. by eapply import_failed.
    - io_unfold. simpl. by eapply import_crashed. }
  unfold main.
  destruct (argv !! 1%nat) as [audio|] eqn:Ha.
  2:{ io_unfold. simpl. by apply missing_arguments. }
  destruct (int_arg_cases w argv 3) as [(mn&H3&_)|(s&e&_&_&He&H3)].
  2:{ unfold mbind at 1, io_mbind, io_bind. rewrite H3. simpl.
      eapply bad_integer; eauto. }
  destruct (int_arg_cases w argv 4) as [(mx&H4&_)|(s&e&_&_&He&H4)].
  2:{ unfold mbind at 1, io_mbind, io_bind. rewrite H3.
      unfold mbind at 1, io_mbind, io_bind. rewrite H4. simpl.
      eapply bad_integer; eauto. }
  unfold mbind at 1, io_mbind, io_bind. rewrite H3.
  unfold mbind at 1, io_mbind, io_bind. rewrite H4.
  destruct (path_exists w audio) as [e|[|]] eqn:Hex; simpl.
  1:{ io_unfold. simpl. by eapply exists_raised. }
  2:{ io_unfold. simpl. by eapply missing_file. }
  destruct (diarize_audio_cases w audio (argv !! 2%nat) mn mx)
    as [(t&r&Hb&Hd)|(t&e&Hb&Hd)].
  - io_unfold. rewrite Hd. simpl. rewrite ?app_nil_r.
    by eapply succeeded.
  - io_unfold. rewrite Hd. simpl. rewrite ?app_nil_r.
    by eapply diarization_failed.
Qed.

End Behaviour.

(** ** Counting speakers *)

Section Counting.

Implicit Types (l ds : list string) (segs : list segment).

(** The size of the set of labels is the length of any duplicate-free
    enumeration of them. *)
Lemma size_labels_NoDup l ds :
  NoDup ds → (∀ x, x ∈ ds ↔ x ∈ l) →
  size (list_to_set l : gset string) = length ds.
Proof.
  intros Hnd Hiff. rewrite <- (size_list_to_set (C:=gset string) ds Hnd).
  f_equal. apply set_eq. intros x. rewrite !elem_of_list_to_set. by rewrite Hiff.
Qed.

Lemma size_labels_remove_dups l :
  size (list_to_set l : gset string) = length (remove_dups l).
Proof.
  apply size_labels_NoDup; [apply NoDup_remove_dups|].
  intros x. apply elem_of_remove_dups.
Qed.

Lemma length_remove_dups_le l : (length (remove_dups l) ≤ length l)%nat.
Proof. induction l as [|x l IH]; simpl; [lia|]. case_decide; simpl; lia. Qed.

Lemma remove_dups_nil_inv l : remove_dups l = [] → l = [].
Proof.
  destruct l as [|x l]; [done|]. intros H.
  assert (x ∈ remove_dups (x :: l)) as Hx by (apply elem_of_remove_dups; left).
  rewrite H in Hx. by apply elem_of_nil in Hx.
Qed.

Lemma count_speakers_le segs : (count_speakers segs ≤ length segs)%nat.
Proof.
  unfold count_speakers. rewrite size_labels_remove_dups.
  etrans; [apply length_remove_dups_le|]. by rewrite length_fmap.
Qed.

Lemma count_speakers_zero segs : count_speakers segs = 0%nat ↔ segs = [].
Proof.
  unfold count_speakers. rewrite size_labels_remove_dups. split.
  - intros H%length_zero_iff_nil%remove_dups_nil_inv. by apply fmap_nil_inv in H.
  - by intros ->.
Qed.

Lemma speaker_segment_of_track (ts : list track) :
  speaker <$> (segment_of_track <$> ts) = label <$> ts.
Proof. rewrite <- list_fmap_compose. done. Qed.

End Counting.

(** ** What reaches the pipeline *)

Lemma elem_of_kwarg name x k v :
  (k, v) ∈ kwarg name x ↔ k = name ∧ x = Some v ∧ v ≠ 0.
Proof.
  unfold kwarg. destruct x as [n|].
  - destruct (Z.eqb_spec n 0) as [->|Hn].
    + rewrite elem_of_nil. split; [done|]. by intros (_&[= <-]&?).
    + rewrite list_elem_of_singleton. split.
      * by intros [= -> ->].
      * by intros (->&[= ->]&_).
  - rewrite elem_of_nil. split; [done|]. by intros (_&?&_).
Qed.

Lemma pipeline_calls_app t1 t2 :
  pipeline_calls (t1 ++ t2) = pipeline_calls t1 ++ pipeline_calls t2.
Proof. apply omap_app. Qed.

Lemma pipeline_calls_call_prefix w audio params :
  pipeline_calls (call_prefix w audio params) = [(audio, params)].
Proof. unfold call_prefix. by destruct (cuda_is_available w). Qed.

Lemma pipeline_calls_save_events out text : pipeline_calls (save_events out text) = [].
Proof. unfold save_events. by destruct (truthy_path out). Qed.

Lemma pipeline_calls_failed_save w path text :
  pipeline_calls (failed_save_events w path text) = [].
Proof. unfold failed_save_events. by destruct (left_on_failure w path text). Qed.

(** [diarize_audio] calls the pipeline at most once, with the audio path
    and [diarization_params]. *)
Lemma pipeline_calls_diarize_body float_repr w audio out mn mx :
  let t := (diarize_body float_repr w audio out mn mx).1 in
  pipeline_calls t = [] ∨ pipeline_calls t = [(audio, diarization_params mn mx)].
Proof.
  destruct (diarize_body float_repr w audio out mn mx) as [t [r|e|c]] eqn:Hb; simpl.
  - apply diarize_body_Ret_inv in Hb as (d&_&_&_&_&_&_&->).
    right. by rewrite pipeline_calls_app, pipeline_calls_call_prefix, pipeline_calls_save_events.
  - apply diarize_body_Raise_inv in Hb
      as [[_ ->]|[(_&_&->)|[[-> _]|(d&path&_&_&_&_&->)]]]; [by left|by left| |].
    + right. apply pipeline_calls_call_prefix.
    + right. by rewrite pipeline_calls_app, pipeline_calls_call_prefix,
        pipeline_calls_failed_save.
  - by apply diarize_body_no_exit in Hb.
Qed.

Lemma pipeline_calls_diarize_audio float_repr w audio out mn mx :
  let t := (diarize_audio float_repr w audio out mn mx).1 in
  pipeline_calls t = [] ∨ pipeline_calls t = [(audio, diarization_params mn mx)].
Proof.
  pose proof (pipeline_calls_diarize_body float_repr w audio out mn mx) as Hb.
  destruct (diarize_audio_cases float_repr w audio out mn mx)
    as [(t&r&Hbody&->)|(t&e&Hbody&->)]; rewrite Hbody in Hb; simpl in *; [done|].
  rewrite pipeline_calls_app. simpl. by rewrite app_nil_r.
Qed.

(** ** The result of [diarize_audio] *)

(** C1: for every result returned by [diarize_audio], [num_speakers] is the
    number of distinct speaker labels among its segments, that is the length
    of any duplicate-free list of exactly the labels that occur; the same
    holds with the labels of the tracks the pipeline yielded. *)
Theorem num_speakers_counts_distinct_labels float_repr w audio out mn mx t r :
  diarize_audio float_repr w audio out mn mx = (t, Ret r) →
  (∀ ds, NoDup ds → (∀ x, x ∈ ds ↔ x ∈ speaker <$> segments r) →
         num_speakers r = length ds)
  ∧ num_speakers r = length (remove_dups (speaker <$> segments r))
  ∧ ∃ d, pipeline w (device_of w) audio (diarization_params mn mx) = inr d
         ∧ ∀ ds, NoDup ds → (∀ x, x ∈ ds ↔ x ∈ label <$> itertracks d) →
                 num_speakers r = length ds.
Proof.
  intros (d&_&_&Hp&_&->&_)%diarize_audio_Ret_inv%diarize_body_Ret_inv. simpl.
  split; [|split].
  - intros ds Hnd Hds. by apply size_labels_NoDup.
  - apply size_labels_remove_dups.
  - exists d. split; [done|]. intros ds Hnd Hds.
    apply size_labels_NoDup; [done|]. by rewrite speaker_segment_of_track.
Qed.

Lemma num_speakers_counts_distinct_labels_witness :
  diarize_audio sample_repr good_world "a.wav" None None None
  = (call_prefix good_world "a.wav" [],
     Ret (make_result "a.wav" (segment_of_track <$> sample_tracks)))
  ∧ num_speakers (make_result "a.wav" (segment_of_track <$> sample_tracks))
    = length ["SPEAKER_00"; "SPEAKER_01"].
Proof.
  split; [vm_compute; reflexivity|].
  apply (num_speakers_counts_distinct_labels sample_repr good_world "a.wav" None None None
           (call_prefix good_world "a.wav" [])
           (make_result "a.wav" (segment_of_track <$> sample_tracks))).
  - vm_compute; reflexivity.
  - apply NoDup_cons. split; [|apply NoDup_singleton].
    rewrite list_elem_of_singleton. discriminate.
  - intros x. simpl. rewrite !elem_of_cons, !elem_of_nil. tauto.
Defined.

(** C10: for every result built by [diarize_audio], [num_speakers] is at
    most the number of segments, and it is zero exactly when there is no
    segment. *)
Theorem num_speakers_bounded_by_segments float_repr w audio out mn mx t r :
  diarize_audio float_repr w audio out mn mx = (t, Ret r) →
  (num_speakers r ≤ length (segments r))%nat
  ∧ (num_speakers r = 0%nat ↔ segments r = []).
Proof.
  intros (d&_&_&_&_&->&_)%diarize_audio_Ret_inv%diarize_body_Ret_inv. simpl.
  split; [apply count_speakers_le | apply count_speakers_zero].
Qed.

Lemma num_speakers_bounded_by_segments_witness :
  diarize_audio sample_repr good_world "b.wav" None (Some 2) None
  = (call_prefix good_world "b.wav" [("min_speakers", 2)],
     Ret (make_result "b.wav" (segment_of_track <$> sample_tracks)))
  ∧ (num_speakers (make_result "b.wav" (segment_of_track <$> sample_tracks))
     ≤ length (segments (make_result "b.wav" (segment_of_track <$> sample_tracks))))%nat
  ∧ (num_speakers (make_result "b.wav" (segment_of_track <$> sample_tracks)) = 0%nat
     ↔ segments (make_result "b.wav" (segment_of_track <$> sample_tracks)) = []).
Proof.
  split; [vm_compute; reflexivity|].
  apply (num_speakers_bounded_by_segments sample_repr good_world "b.wav" None (Some 2) None
           (call_prefix good_world "b.wav" [("min_speakers", 2)])).
  vm_compute; reflexivity.
Defined.

(** C5: the segments of the result are the tracks the pipeline's iteration
    yielded, one segment per track, at the same position and with the
    track's time stamps and label: nothing is reordered, added or dropped. *)
Theorem segments_follow_emission_order float_repr w audio out mn mx t r :
  diarize_audio float_repr w audio out mn mx = (t, Ret r) →
  ∃ d, pipeline w (device_of w) audio (diarization_params mn mx) = inr d
       ∧ segments r = segment_of_track <$> itertracks d
       ∧ length (segments r) = length (itertracks d)
       ∧ ∀ i : nat,
           match itertracks d !! i, segments r !! i with
           | Some tr, Some s =>
               start s = turn_start tr ∧ end_ s = turn_end tr ∧ speaker s = label tr
           | None, None => True
           | _, _ => False
           end.
Proof.
  intros (d&_&_&Hp&_&->&_)%diarize_audio_Ret_inv%diarize_body_Ret_inv. simpl.
  exists d. split; [done|]. split; [done|]. split; [apply length_fmap|].
  intros i. rewrite list_lookup_fmap. by destruct (itertracks d !! i).
Qed.

Lemma segments_follow_emission_order_witness :
  diarize_audio sample_repr good_world "c.wav" None None (Some 3)
  = (call_prefix good_world "c.wav" [("max_speakers", 3)],
     Ret (make_result "c.wav" (segment_of_track <$> sample_tracks)))
  ∧ ∃ d, pipeline good_world (device_of good_world) "c.wav"
           (diarization_params None (Some 3)) = inr d
       ∧ segments (make_result "c.wav" (segment_of_track <$> sample_tracks))
         = segment_of_track <$> itertracks d
       ∧ length (segments (make_result "c.wav" (segment_of_track <$> sample_tracks)))
         = length (itertracks d)
       ∧ ∀ i : nat,
           match itertracks d !! i,
                 segments (make_result "c.wav" (segment_of_track <$> sample_tracks)) !! i with
           | Some tr, Some s =>
               start s = turn_start tr ∧ end_ s = turn_end tr ∧ speaker s = label tr
           | None, None => True
           | _, _ => False
           end.
Proof.
  split; [vm_compute; reflexivity|].
  apply (segments_follow_emission_order sample_repr good_world "c.wav" None None (Some 3)
           (call_prefix good_world "c.wav" [("max_speakers", 3)])).
  vm_compute; reflexivity.
Defined.

(** C4: whenever [diarize_audio] calls the pipeline, the call carries the
    audio path, and the keyword [min_speakers] (resp. [max_speakers]) is
    among its keywords exactly when that argument is an integer other than
    zero, with that integer as its value; [None] and [0] leave the keyword
    out, and no other keyword is ever passed. *)
Theorem speaker_bounds_forwarded_when_given float_repr w audio out mn mx a kwargs :
  (a, kwargs) ∈ pipeline_calls (diarize_audio float_repr w audio out mn mx).1 →
  a = audio
  ∧ (∀ v, ("min_speakers", v) ∈ kwargs ↔ mn = Some v ∧ v ≠ 0)
  ∧ (∀ v, ("max_speakers", v) ∈ kwargs ↔ mx = Some v ∧ v ≠ 0)
  ∧ (∀ k v, (k, v) ∈ kwargs → k = "min_speakers" ∨ k = "max_speakers")
  ∧ (mn = None ∨ mn = Some 0 → mx = None ∨ mx = Some 0 → kwargs = []).
Proof.
  destruct (pipeline_calls_diarize_audio float_repr w audio out mn mx) as [->| ->].
  { by intros ?%elem_of_nil. }
  intros [= -> ->]%list_elem_of_singleton. unfold diarization_params.
  split; [done|]. split; [|split; [|split]].
  - intros v. rewrite elem_of_app, !elem_of_kwarg. intuition (congruence || auto).
  - intros v. rewrite elem_of_app, !elem_of_kwarg. intuition (congruence || auto).
  - intros k v. rewrite elem_of_app, !elem_of_kwarg. intuition (congruence || auto).
  - by intros [-> | ->] [-> | ->].
Qed.

Lemma speaker_bounds_forwarded_when_given_witness :
  ("d.wav", [("min_speakers", 2)])
    ∈ pipeline_calls (diarize_audio sample_repr good_world "d.wav" None (Some 2) (Some 0)).1
  ∧ "d.wav" = "d.wav"
  ∧ (∀ v, ("min_speakers", v) ∈ [("min_speakers", 2)] ↔ Some 2 = Some v ∧ v ≠ 0)
  ∧ (∀ v, ("max_speakers", v) ∈ [("min_speakers", 2)] ↔ Some 0 = Some v ∧ v ≠ 0)
  ∧ (∀ k v, (k, v) ∈ [("min_speakers", 2)] → k = "min_speakers" ∨ k = "max_speakers")
  ∧ (Some 2 = None ∨ Some 2 = Some 0 → Some 0 = None ∨ Some 0 = Some 0 →
     [("min_speakers", 2)] = []).
Proof.
  assert (("d.wav", [("min_speakers", 2)])
    ∈ pipeline_calls (diarize_audio sample_repr good_world "d.wav" None (Some 2) (Some 0)).1)
    as Hin by (vm_compute; left).
  split; [exact Hin|].
  exact (speaker_bounds_forwarded_when_given sample_repr good_world "d.wav" None
           (Some 2) (Some 0) "d.wav" [("min_speakers", 2)] Hin).
Defined.

(** ** Runs that get past the checks of [main] *)

(** Once the imports worked, the arguments parsed and the audio file is
    there, the run is [diarize_audio] followed by the summary. *)
Lemma run_after_checks float_repr w argv audio mn mx :
  import_error w = None → argv !! 1%nat = Some audio →
  int_arg w argv 3 = ([], Ret mn) → int_arg w argv 4 = ([], Ret mx) →
  path_exists w audio = true →
  run float_repr w argv =
    match diarize_body float_repr w audio (argv !! 2%nat) mn mx with
    | (t, Ret r) => Process (PathExists audio :: t ++ summary float_repr r) 0
    | (t, Raise e) =>
        Process (PathExists audio :: t
                 ++ [Stderr ("ERROR: Diarization failed: " +:+ exc_str e)]) 1
    | (t, SysExit c) => Process (PathExists audio :: t) c
    end.
Proof.
  intros Himp Ha H3 H4 Hex. unfold run, script, main. rewrite Himp, Ha.
  unfold mbind at 1, io_mbind, io_bind. rewrite H3.
  unfold mbind at 1, io_mbind, io_bind. rewrite H4.
  rewrite Hex. simpl.
  destruct (diarize_audio_cases float_repr w audio (argv !! 2%nat) mn mx)
    as [(t&r&Hb&Hd)|(t&e&Hb&Hd)]; rewrite Hb.
  - io_unfold. rewrite Hd. simpl. by rewrite ?app_nil_r.
  - io_unfold. rewrite Hd. simpl. by rewrite ?app_nil_r.
Qed.

Section Forward.

Variable float_repr : float → string.
Variable w : world.
Variables (audio : string) (out : option string) (mn mx : option Z).

Hypothesis load_ok : from_pretrained_error w = None.
Hypothesis to_ok : cuda_is_available w = true → to_error w Cuda = None.

(** A body whose model loads and moves gets to the pipeline call, and
    what follows is decided by the pipeline and the save. *)
Lemma diarize_body_after_load :
  diarize_body float_repr w audio out mn mx =
    let params := diarization_params mn mx in
    match pipeline w (device_of w) audio params with
    | inl e => (call_prefix w audio params, Raise e)
    | inr d =>
        match itertracks_error d with
        | Some e => (call_prefix w audio params, Raise e)
        | None =>
            let res := make_result audio (segment_of_track <$> itertracks d) in
            let text := dump_indent2 float_repr (json_of_result res) in
            match truthy_path out with
            | Some path =>
                match write_error w path text with
                | Some e =>
                    (call_prefix w audio params ++ failed_save_events w path text, Raise e)
                | None => (call_prefix w audio params ++ save_events out text, Ret res)
                end
            | None => (call_prefix w audio params ++ save_events out text, Ret res)
            end
        end
    end.
Proof.
  unfold diarize_body, device_of, call_prefix, save_events, failed_save. io_unfold.
  rewrite load_ok. simpl.
  destruct (cuda_is_available w); simpl.
  - rewrite to_ok by done. simpl.
    destruct (pipeline w Cuda audio _) as [e|d]; simpl; [done|].
    destruct (itertracks_error d); simpl; [done|].
    destruct (truthy_path out) as [path|]; simpl; [|done].
    destruct (write_error w _ _); simpl; [|done]. by rewrite ?app_nil_r.
  - destruct (pipeline w Cpu audio _) as [e|d]; simpl; [done|].
    destruct (itertracks_error d); simpl; [done|].
    destruct (truthy_path out) as [path|]; simpl; [|done].
    destruct (write_error w _ _); simpl; [|done]. by rewrite ?app_nil_r.
Qed.

End Forward.

Lemma count_events_app f t1 t2 :
  count_events f (t1 ++ t2) = (count_events f t1 + count_events f t2)%nat.
Proof. unfold count_events. by rewrite List.filter_app, length_app. Qed.

Lemma stdout_of_app t1 t2 : stdout_of (t1 ++ t2) = stdout_of t1 ++ stdout_of t2.
Proof. apply omap_app. Qed.

Lemma files_written_app t1 t2 : files_written (t1 ++ t2) = files_written t1 ++ files_written t2.
Proof. apply omap_app. Qed.

Lemma stdout_of_call_prefix w audio params : stdout_of (call_prefix w audio params) = [].
Proof. unfold call_prefix. by destruct (cuda_is_available w). Qed.

Lemma files_written_call_prefix w audio params :
  files_written (call_prefix w audio params) = [].
Proof. unfold call_prefix. by destruct (cuda_is_available w). Qed.

Lemma stdout_of_save_events out text : stdout_of (save_events out text) = [].
Proof. unfold save_events. by destruct (truthy_path out). Qed.

Lemma files_written_save_events out text :
  files_written (save_events out text)
  = match truthy_path out with Some path => [(path, text)] | None => [] end.
Proof. unfold save_events. by destruct (truthy_path out). Qed.

Lemma count_events_call_prefix w audio params :
  count_events is_load (call_prefix w audio params) = 1%nat
  ∧ count_events is_call (call_prefix w audio params) = 1%nat
  ∧ count_events checks_path (call_prefix w audio params) = 0%nat.
Proof. unfold call_prefix. by destruct (cuda_is_available w). Qed.

Lemma failed_save_events_quiet w path text :
  stdout_of (failed_save_events w path text) = []
  ∧ files_written (failed_save_events w path text) = []
  ∧ count_events is_load (failed_save_events w path text) = 0%nat
  ∧ count_events is_call (failed_save_events w path text) = 0%nat
  ∧ count_events checks_path (failed_save_events w path text) = 0%nat.
Proof. unfold failed_save_events. by destruct (left_on_failure w path text). Qed.

Lemma count_events_save_events out text :
  count_events is_load (save_events out text) = 0%nat
  ∧ count_events is_call (save_events out text) = 0%nat
  ∧ count_events checks_path (save_events out text) = 0%nat.
Proof. unfold save_events. by destruct (truthy_path out). Qed.

(** A body that raises has printed nothing on standard output and written
    no file; whatever its outcome it loads the model once, calls the
    pipeline at most once and never looks at the file system. *)
Lemma diarize_body_Raise_quiet float_repr w audio out mn mx t e :
  diarize_body float_repr w audio out mn mx = (t, Raise e) →
  stdout_of t = [] ∧ files_written t = [].
Proof.
  intros [[_ ->]|[(_&_&->)|[[-> _]|(d&path&_&_&_&_&->)]]]%diarize_body_Raise_inv;
    [done|done| |].
  - by rewrite stdout_of_call_prefix, files_written_call_prefix.
  - rewrite stdout_of_app, files_written_app, stdout_of_call_prefix,
      files_written_call_prefix.
    by destruct (failed_save_events_quiet w path
                   (dump_indent2 float_repr
                      (json_of_result
                         (make_result audio (segment_of_track <$> itertracks d)))))
      as (->&->&_).
Qed.

Lemma diarize_body_counts float_repr w audio out mn mx :
  let t := (diarize_body float_repr w audio out mn mx).1 in
  count_events is_load t = 1%nat
  ∧ (count_events is_call t ≤ 1)%nat
  ∧ count_events checks_path t = 0%nat.
Proof.
  destruct (diarize_body float_repr w audio out mn mx) as [t [r|e|c]] eqn:Hb; simpl.
  - apply diarize_body_Ret_inv in Hb as (d&_&_&_&_&_&_&->).
    rewrite !count_events_app.
    destruct (count_events_call_prefix w audio (diarization_params mn mx)) as (->&->&->).
    destruct (count_events_save_events out
                (dump_indent2 float_repr (json_of_result r))) as (->&->&->).
    lia.
  - apply diarize_body_Raise_inv in Hb
      as [[_ ->]|[(_&_&->)|[[-> _]|(d&path&_&_&_&_&->)]]]; [cbv; lia|cbv; lia| |].
    + destruct (count_events_call_prefix w audio (diarization_params mn mx))
        as (->&->&->).
      lia.
    + rewrite !count_events_app.
      destruct (count_events_call_prefix w audio (diarization_params mn mx))
        as (->&->&->).
      destruct (failed_save_events_quiet w path
                  (dump_indent2 float_repr
                     (json_of_result
                        (make_result audio (segment_of_track <$> itertracks d)))))
        as (_&_&->&->&->).
      lia.
  - by apply diarize_body_no_exit in Hb.
Qed.

(** ** Failures before and around the pipeline *)

(** C3: when the audio file argument names a path that does not exist, the
    process exits with status 1, the last thing it did was to report an
    error on standard error, nothing was printed on standard output, and
    the pipeline library was never loaded, moved or called. *)
Theorem missing_file_exits_without_pipeline float_repr w argv audio :
  argv !! 1%nat = Some audio →
  path_exists w audio = false →
  let p := run float_repr w argv in
  exit_status p = 1
  ∧ (∃ e, last (trace p) = Some e ∧ on_stderr e = true)
  ∧ stdout_of (trace p) = []
  ∧ Forall (λ e, touches_pipeline e = false) (trace p)
  ∧ (import_error w = None →
     (∃ mn, int_arg w argv 3 = ([], Ret mn)) → (∃ mx, int_arg w argv 4 = ([], Ret mx)) →
     trace p = [PathExists audio; Stderr ("ERROR: Audio file not found: " +:+ audio)]).
Proof.
  intros Ha Hex p. subst p.
  destruct (run_behaviour float_repr w argv)
    as [e Hi He|e Hi He|Hi Hn|a e Hi Ha' Hint He|a mn mx Hi Ha' H3 H4 Hex'
        |a mn mx t e Hi Ha' H3 H4 Hex' Hb|a mn mx t r Hi Ha' H3 H4 Hex' Hb
        |a mn mx e Hi Ha' H3 H4 Hex']; simpl.
  - split_and!; [done|by eexists|done|by repeat constructor|congruence].
  - split_and!; [done|by eexists|done|by repeat constructor|congruence].
  - by rewrite Ha in Hn.
  - split_and!; [done|by eexists|done|by repeat constructor|].
    intros _ [mn H3] [mx H4]. destruct Hint as [H|[_ H]]; congruence.
  - rewrite Ha in Ha'. injection Ha' as <-.
    split_and!; [done|by eexists|done|by repeat constructor|done].
  - rewrite Ha in Ha'. injection Ha' as <-. congruence.
  - rewrite Ha in Ha'. injection Ha' as <-. congruence.
  - rewrite Ha in Ha'. injection Ha' as <-. congruence.
Qed.

Lemma missing_file_exits_without_pipeline_witness :
  ["diarize_speakers.py"; "missing.wav"; "out.json"] !! 1%nat = Some "missing.wav"
  ∧ path_exists empty_disk_world "missing.wav" = false
  ∧ exit_status (run sample_repr empty_disk_world
                   ["diarize_speakers.py"; "missing.wav"; "out.json"]) = 1.
Proof.
  split; [reflexivity|]. split; [reflexivity|].
  apply (missing_file_exits_without_pipeline sample_repr empty_disk_world
           ["diarize_speakers.py"; "missing.wav"; "out.json"] "missing.wav");
    reflexivity.
Defined.

(** ** Exit status *)

Section ExitStatus.

Variable float_repr : float → string.
Variable w : world.
Variable argv : list string.

Lemma behaviour_status p :
  behaviour float_repr w argv p → exit_status p = 0 ∨ exit_status p = 1.
Proof. destruct 1; simpl; auto. Qed.

(** Status 0 is reached on one path only. *)
Lemma behaviour_zero_inv p :
  behaviour float_repr w argv p → exit_status p = 0 →
  ∃ audio mn mx t r,
    import_error w = None ∧ argv !! 1%nat = Some audio
    ∧ int_arg w argv 3 = ([], Ret mn) ∧ int_arg w argv 4 = ([], Ret mx)
    ∧ path_exists w audio = true
    ∧ diarize_body float_repr w audio (argv !! 2%nat) mn mx = (t, Ret r)
    ∧ p = Process (PathExists audio :: t ++ summary float_repr r) 0.
Proof.
  destruct 1; simpl; try discriminate. intros _.
  eexists _, _, _, _, _. split_and!; eauto.
Qed.

(** A run that fails ends on a message on standard error and has printed
    nothing on standard output. *)
Lemma behaviour_failure_message p :
  behaviour float_repr w argv p → exit_status p = 1 →
  (∃ e, last (trace p) = Some e ∧ on_stderr e = true) ∧ stdout_of (trace p) = [].
Proof.
  destruct 1 as [| | | | |a mn mx t e _ _ _ _ _ Hb| |]; simpl; try discriminate; intros _.
  1-5,7: split; [by eexists|done].
  split.
  - eexists. rewrite app_comm_cons, last_snoc. done.
  - apply diarize_body_Raise_quiet in Hb as [Hout _].
    change (stdout_of (t ++ [Stderr ("ERROR: Diarization failed: " +:+ exc_str e)]) = []).
    by rewrite stdout_of_app, Hout.
Qed.

(** Nothing is attempted twice. *)
Lemma behaviour_counts p :
  behaviour float_repr w argv p →
  (count_events is_load (trace p) ≤ 1)%nat
  ∧ (count_events is_call (trace p) ≤ 1)%nat
  ∧ (count_events checks_path (trace p) ≤ 1)%nat.
Proof.
  destruct 1 as [| | | | |a mn mx t e _ _ _ _ _ Hb|a mn mx t r _ _ _ _ _ Hb|]; simpl.
  1-5,8: cbv; lia.
  - pose proof (diarize_body_counts float_repr w a (argv !! 2%nat) mn mx) as Hc.
    rewrite Hb in Hc. simpl in Hc. destruct Hc as (Hl&Hc&Hp).
    change (PathExists a :: t ++ ?l) with ([PathExists a] ++ t ++ l).
    rewrite !count_events_app, Hl, Hp. cbn. lia.
  - pose proof (diarize_body_counts float_repr w a (argv !! 2%nat) mn mx) as Hc.
    rewrite Hb in Hc. simpl in Hc. destruct Hc as (Hl&Hc&Hp).
    change (PathExists a :: t ++ ?l) with ([PathExists a] ++ t ++ l).
    rewrite !count_events_app, Hl, Hp. cbn. lia.
Qed.

End ExitStatus.

(** C6: the exit status is 1 when arguments are missing, when the input
    file is missing, when the import of the pipeline library fails and when
    any step of the diarization raises; it is 0 when the run succeeds, and
    no other status occurs.  A run that fails ends on a message on standard
    error, and the model is loaded, the pipeline called and the file looked
    up at most once: nothing is retried. *)
Theorem exit_status_one_on_failure_zero_on_success float_repr w argv :
  let p := run float_repr w argv in
  ((length argv < 2)%nat → exit_status p = 1)
  ∧ (∀ audio, argv !! 1%nat = Some audio → path_exists w audio = false →
       exit_status p = 1)
  ∧ (∀ e, import_error w = Some e → exit_status p = 1)
  ∧ (∀ audio mn mx t e,
       import_error w = None → argv !! 1%nat = Some audio →
       int_arg w argv 3 = ([], Ret mn) → int_arg w argv 4 = ([], Ret mx) →
       path_exists w audio = true →
       diarize_body float_repr w audio (argv !! 2%nat) mn mx = (t, Raise e) →
       exit_status p = 1
       ∧ last (trace p) = Some (Stderr ("ERROR: Diarization failed: " +:+ exc_str e)))
  ∧ (∀ audio mn mx t r,
       import_error w = None → argv !! 1%nat = Some audio →
       int_arg w argv 3 = ([], Ret mn) → int_arg w argv 4 = ([], Ret mx) →
       path_exists w audio = true →
       diarize_audio float_repr w audio (argv !! 2%nat) mn mx = (t, Ret r) →
       exit_status p = 0)
  ∧ (exit_status p = 0 ∨ exit_status p = 1)
  ∧ (exit_status p = 1 →
       (∃ e, last (trace p) = Some e ∧ on_stderr e = true) ∧ stdout_of (trace p) = [])
  ∧ (count_events is_load (trace p) ≤ 1)%nat
  ∧ (count_events is_call (trace p) ≤ 1)%nat
  ∧ (count_events checks_path (trace p) ≤ 1)%nat.
Proof.
  intros p. pose proof (run_behaviour float_repr w argv) as Hb. fold p in Hb.
  assert (∀ P : Prop, (exit_status p = 0 → P → False) → P → exit_status p = 1) as Hnot0.
  { intros P HP HP'. destruct (behaviour_status _ _ _ _ Hb) as [H0|H1]; [|done].
    destruct (HP H0 HP'). }
  split_and!.
  - apply Hnot0. intros (a&?&?&?&?&_&Ha&_)%(behaviour_zero_inv _ _ _ _ Hb) Hlen.
    apply lookup_lt_Some in Ha. lia.
  - intros audio Ha Hex. revert Hex. apply Hnot0.
    intros (a&?&?&?&?&_&Ha'&_&_&Hex'&_)%(behaviour_zero_inv _ _ _ _ Hb) Hex. congruence.
  - intros e. apply Hnot0.
    intros (a&?&?&?&?&Hi&_)%(behaviour_zero_inv _ _ _ _ Hb) Hi'. congruence.
  - intros audio mn mx t e Hi Ha H3 H4 Hex Hbody. subst p.
    rewrite (run_after_checks float_repr w argv audio mn mx) by done.
    rewrite Hbody. simpl. split; [done|]. by rewrite app_comm_cons, last_snoc.
  - intros audio mn mx t r Hi Ha H3 H4 Hex Hd%diarize_audio_Ret_inv. subst p.
    rewrite (run_after_checks float_repr w argv audio mn mx) by done.
    by rewrite Hd.
  - by eapply behaviour_status.
  - by eapply behaviour_failure_message.
  - by eapply behaviour_counts.
  - by eapply behaviour_counts.
  - by eapply behaviour_counts.
Qed.

(** ** Arguments that are not integers *)

(** C8: when the third or the fourth argument is not an integer literal,
    that is when [int] raises [ValueError] on it,
    [main] ends with a [ValueError] that nothing catches: it has printed
    nothing, has not looked the file up, has not touched the pipeline
    library and has not called [sys.exit].  In the process (the imports
    having worked, so that [main] runs) the only event is the interpreter
    reporting the exception, and the status is 1, whether or not the audio
    file exists. *)
Theorem bad_integer_argument_is_uncaught float_repr w argv :
  (∃ s, argv !! 3%nat = Some s ∧ py_int w s = None)
  ∨ (∃ s, argv !! 4%nat = Some s ∧ py_int w s = None) →
  ∃ e, exc_type e = ValueError
       ∧ main float_repr w argv = ([], Raise e)
       ∧ (import_error w = None →
          run float_repr w argv = Process [Traceback e] 1
          ∧ Forall (λ ev, checks_path ev = false ∧ touches_pipeline ev = false)
              (trace (run float_repr w argv))
          ∧ stdout_of (trace (run float_repr w argv)) = []
          ∧ ∀ line, Stderr line ∉ trace (run float_repr w argv)).
Proof.
  intros Hbad.
  assert (∃ e, exc_type e = ValueError ∧ main float_repr w argv = ([], Raise e))
    as (e&He&Hs).
  { unfold main.
    assert (is_Some (argv !! 1%nat)) as [audio ->].
    { apply lookup_lt_is_Some.
      destruct Hbad as [(s&Hs%lookup_lt_Some&_)|(s&Hs%lookup_lt_Some&_)]; lia. }
    destruct (int_arg_cases w argv 3) as [(mn&H3&Hmn)|(s&e&_&_&He&H3)].
    2:{ exists e. split; [done|]. unfold mbind at 1, io_mbind, io_bind. by rewrite H3. }
    destruct (int_arg_cases w argv 4) as [(mx&H4&Hmx)|(s&e&_&_&He&H4)].
    2:{ exists e. split; [done|]. unfold mbind at 1, io_mbind, io_bind. rewrite H3.
        unfold mbind at 1, io_mbind, io_bind. by rewrite H4. }
    exfalso. destruct Hbad as [(s&Hs&Hnone)|(s&Hs&Hnone)].
    - destruct Hmn as [[_ ?]|(s'&n&?&?&_)]; congruence.
    - destruct Hmx as [[_ ?]|(s'&n&?&?&_)]; congruence. }
  exists e. split; [done|]. split; [done|]. intros Himp.
  assert (run float_repr w argv = Process [Traceback e] 1) as ->.
  { unfold run, script. by rewrite Himp, Hs. }
  simpl. split_and!; [done|by repeat constructor|done|].
  intros line [=]%list_elem_of_singleton.
Qed.

Lemma bad_integer_argument_is_uncaught_witness :
  ((∃ s, ["diarize_speakers.py"; "a.wav"; "out.json"; "two"] !! 3%nat = Some s
         ∧ py_int good_world s = None)
   ∨ (∃ s, ["diarize_speakers.py"; "a.wav"; "out.json"; "two"] !! 4%nat = Some s
           ∧ py_int good_world s = None))
  ∧ ∃ e, exc_type e = ValueError
       ∧ main sample_repr good_world ["diarize_speakers.py"; "a.wav"; "out.json"; "two"]
         = ([], Raise e)
       ∧ run sample_repr good_world ["diarize_speakers.py"; "a.wav"; "out.json"; "two"]
         = Process [Traceback e] 1.
Proof.
  assert ((∃ s, ["diarize_speakers.py"; "a.wav"; "out.json"; "two"] !! 3%nat = Some s
                ∧ py_int good_world s = None)
          ∨ (∃ s, ["diarize_speakers.py"; "a.wav"; "out.json"; "two"] !! 4%nat = Some s
                  ∧ py_int good_world s = None)) as Hbad.
  { left. exists "two". split; reflexivity. }
  split; [exact Hbad|].
  destruct (bad_integer_argument_is_uncaught sample_repr good_world
              ["diarize_speakers.py"; "a.wav"; "out.json"; "two"] Hbad)
    as (e&He&Hs&Hrun).
  exists e. split; [exact He|]. split; [exact Hs|]. exact (proj1 (Hrun eq_refl)).
Defined.

(** ** A save that fails *)

Lemma without_file_events_call_prefix w audio params :
  List.filter (λ ev, negb (touches_file ev)) (call_prefix w audio params)
  = call_prefix w audio params.
Proof. unfold call_prefix. by destruct (cuda_is_available w). Qed.

Lemma without_file_events_failed_save w path text :
  List.filter (λ ev, negb (touches_file ev)) (failed_save_events w path text) = [].
Proof. unfold failed_save_events. by destruct (left_on_failure w path text). Qed.

(** C9: when the diarization worked and the save of the output file
    raises, the exception reaches the handler of [diarize_audio]: the run
    reports [ERROR: Diarization failed: ...] on standard error and exits
    with status 1, and nothing is printed on standard output, although the
    pipeline was called.  If the file had been opened before the failure
    it is left behind, empty or part written.  Apart from that the run is
    event for event the one in which the pipeline call itself raised the
    same exception. *)
Theorem write_failure_reported_as_diarization_failure
    float_repr w argv audio path mn mx d e :
  import_error w = None →
  argv !! 1%nat = Some audio → argv !! 2%nat = Some path → path ≠ "" →
  int_arg w argv 3 = ([], Ret mn) → int_arg w argv 4 = ([], Ret mx) →
  path_exists w audio = true →
  from_pretrained_error w = None →
  (cuda_is_available w = true → to_error w Cuda = None) →
  pipeline w (device_of w) audio (diarization_params mn mx) = inr d →
  itertracks_error d = None →
  write_error w path
    (dump_indent2 float_repr
       (json_of_result (make_result audio (segment_of_track <$> itertracks d)))) = Some e →
  let text := dump_indent2 float_repr
                (json_of_result (make_result audio (segment_of_track <$> itertracks d))) in
  let p := run float_repr w argv in
  p = Process (PathExists audio
               :: (call_prefix w audio (diarization_params mn mx)
                   ++ failed_save_events w path text)
               ++ [Stderr ("ERROR: Diarization failed: " +:+ exc_str e)]) 1
  ∧ exit_status p = 1
  ∧ last (trace p) = Some (Stderr ("ERROR: Diarization failed: " +:+ exc_str e))
  ∧ stdout_of (trace p) = []
  ∧ pipeline_calls (trace p) = [(audio, diarization_params mn mx)]
  ∧ (∀ ev, ev ∈ trace p → touches_file ev = true →
       ∃ remains, left_on_failure w path text = Some remains
                  ∧ ev = FileTruncated path remains)
  ∧ List.filter (λ ev, negb (touches_file ev)) (trace p)
    = trace (run float_repr (with_pipeline_error e w) argv)
  ∧ exit_status (run float_repr (with_pipeline_error e w) argv) = 1.
Proof.
  intros Himp Ha Hout Hne H3 H4 Hex Hload Hto Hpipe Hiter Hwrite text p.
  assert (truthy_path (argv !! 2%nat) = Some path) as Htp.
  { rewrite Hout. simpl. by apply String.eqb_neq in Hne as ->. }
  assert (p = Process (PathExists audio
               :: (call_prefix w audio (diarization_params mn mx)
                   ++ failed_save_events w path text)
               ++ [Stderr ("ERROR: Diarization failed: " +:+ exc_str e)]) 1) as Hp.
  { subst p. rewrite (run_after_checks float_repr w argv audio mn mx) by done.
    rewrite diarize_body_after_load by done. simpl.
    by rewrite Hpipe, Hiter, Htp, Hwrite. }
  assert (run float_repr (with_pipeline_error e w) argv
          = Process (PathExists audio :: call_prefix w audio (diarization_params mn mx)
                     ++ [Stderr ("ERROR: Diarization failed: " +:+ exc_str e)]) 1) as Hp'.
  { rewrite (run_after_checks float_repr (with_pipeline_error e w) argv audio mn mx)
      by done.
    rewrite diarize_body_after_load by done. simpl. done. }
  split; [done|]. rewrite Hp, Hp'. unfold trace, exit_status.
  change (PathExists audio :: (?a ++ ?b) ++ ?c) with ([PathExists audio] ++ (a ++ b) ++ c).
  destruct (failed_save_events_quiet w path text) as (Hq1&_).
  split_and!.
  - done.
  - by rewrite !app_assoc, last_snoc.
  - by rewrite !stdout_of_app, stdout_of_call_prefix, Hq1.
  - by rewrite !pipeline_calls_app, pipeline_calls_call_prefix,
      pipeline_calls_failed_save.
  - intros ev Hin Hev. rewrite !elem_of_app in Hin.
    destruct Hin as [Hin|[[Hin|Hin]|Hin]].
    + apply list_elem_of_singleton in Hin as ->. discriminate.
    + exfalso. unfold call_prefix in Hin. apply list_elem_of_In in Hin.
      destruct (cuda_is_available w); simpl in Hin;
        repeat (destruct Hin as [<-|Hin]; [discriminate|]); destruct Hin.
    + unfold failed_save_events in Hin.
      destruct (left_on_failure w path text) as [remains|]; [|by apply elem_of_nil in Hin].
      apply list_elem_of_singleton in Hin as ->. by exists remains.
    + apply list_elem_of_singleton in Hin as ->. discriminate.
  - rewrite !List.filter_app, without_file_events_call_prefix,
      without_file_events_failed_save. simpl. by rewrite app_nil_r.
  - done.
Qed.

Lemma write_failure_reported_as_diarization_failure_witness :
  write_error full_disk_world "/out.json"
    (dump_indent2 sample_repr
       (json_of_result (make_result "a.wav" (segment_of_track <$> sample_tracks))))
  = Some (PyExc OSError "[Errno 28] No space left on device")
  ∧ exit_status (run sample_repr full_disk_world
                   ["diarize_speakers.py"; "a.wav"; "/out.json"]) = 1
  ∧ stdout_of (trace (run sample_repr full_disk_world
                        ["diarize_speakers.py"; "a.wav"; "/out.json"])) = []
  ∧ FileTruncated "/out.json" ""
      ∈ trace (run sample_repr full_disk_world
                 ["diarize_speakers.py"; "a.wav"; "/out.json"]).
Proof.
  split; [reflexivity|].
  pose proof (write_failure_reported_as_diarization_failure sample_repr full_disk_world
                ["diarize_speakers.py"; "a.wav"; "/out.json"] "a.wav" "/out.json"
                None None (Annotation sample_tracks None)
                (PyExc OSError "[Errno 28] No space left on device")
                eq_refl eq_refl eq_refl ltac:(discriminate) eq_refl eq_refl eq_refl eq_refl
                (λ _, eq_refl) eq_refl eq_refl eq_refl) as (_&H1&_&H2&_).
  split; [exact H1|]. split; [exact H2|].
  vm_compute. do 4 right. left.
Defined.

(** ** The accelerator *)

(** C7, as stated, fails, in two ways.  With an accelerator whose
    [pipeline.to] raises, the run with the accelerator has no result and
    exits with status 1 while the run without it returns a result and
    exits with status 0.  And with a pipeline that answers differently on
    the two devices, both runs succeed and return different results. *)
Lemma accelerator_can_change_the_outcome :
  ¬ (∀ w audio out mn mx,
       returned (diarize_audio sample_repr (set_cuda true w) audio out mn mx)
       = returned (diarize_audio sample_repr (set_cuda false w) audio out mn mx))
  ∧ exit_status (run sample_repr (set_cuda true gpu_failing_world)
                   ["diarize_speakers.py"; "a.wav"]) = 1
  ∧ exit_status (run sample_repr (set_cuda false gpu_failing_world)
                   ["diarize_speakers.py"; "a.wav"]) = 0
  ∧ to_error device_sensitive_world Cuda = None
  ∧ num_speakers <$> returned (diarize_audio sample_repr
                                 (set_cuda true device_sensitive_world) "a.wav" None None None)
    = Some 2%nat
  ∧ num_speakers <$> returned (diarize_audio sample_repr
                                 (set_cuda false device_sensitive_world) "a.wav" None None None)
    = Some 1%nat
  ∧ returned (diarize_audio sample_repr
                (set_cuda true device_sensitive_world) "a.wav" None None None)
    ≠ returned (diarize_audio sample_repr
                  (set_cuda false device_sensitive_world) "a.wav" None None None)
  ∧ exit_status (run sample_repr (set_cuda true device_sensitive_world)
                   ["diarize_speakers.py"; "a.wav"]) = 0
  ∧ exit_status (run sample_repr (set_cuda false device_sensitive_world)
                   ["diarize_speakers.py"; "a.wav"]) = 0.
Proof.
  split_and!; try (vm_compute; reflexivity).
  - intros H. specialize (H gpu_failing_world "a.wav" None None None).
    vm_compute in H. discriminate H.
  - intros H. apply (f_equal (fmap num_speakers)) in H.
    vm_compute in H. discriminate H.
Qed.

(** C7, amended: the script consults the accelerator only to move the
    pipeline to it.  When that move raises, the adapter with the
    accelerator fails like on any other exception: it prints
    [ERROR: Diarization failed: ...] and exits with status 1, without a
    result.  When the move does not raise and the pipeline answers the same
    on both devices, the adapter with the accelerator and the one without
    it end the same way, with the same result value and the same files, and
    differ in their events by the move alone. *)
Theorem accelerator_matters_only_through_pipeline float_repr w audio out mn mx :
  let gpu := diarize_audio float_repr (set_cuda true w) audio out mn mx in
  let cpu := diarize_audio float_repr (set_cuda false w) audio out mn mx in
  (∀ e, from_pretrained_error w = None → to_error w Cuda = Some e →
     gpu = ([FromPretrained model_name; PipelineTo Cuda;
             Stderr ("ERROR: Diarization failed: " +:+ exc_str e)], SysExit 1)
     ∧ returned gpu = None)
  ∧ (to_error w Cuda = None →
     pipeline w Cuda audio (diarization_params mn mx)
     = pipeline w Cpu audio (diarization_params mn mx) →
     gpu.2 = cpu.2
     ∧ returned gpu = returned cpu
     ∧ List.filter (λ e, negb (touches_pipeline e)) gpu.1
       = List.filter (λ e, negb (touches_pipeline e)) cpu.1
     ∧ files_written gpu.1 = files_written cpu.1).
Proof.
  intros gpu cpu. split.
  - intros e Hload Hto.
    assert (gpu = ([FromPretrained model_name; PipelineTo Cuda;
                    Stderr ("ERROR: Diarization failed: " +:+ exc_str e)], SysExit 1))
      as Hgpu.
    { subst gpu. unfold diarize_audio, diarize_body, try_except. io_unfold. simpl.
      rewrite Hload. simpl. by rewrite Hto. }
    split; [done|]. by rewrite Hgpu.
  - intros Hto Hpipe.
    assert (gpu.2 = cpu.2
            ∧ List.filter (λ e, negb (touches_pipeline e)) gpu.1
              = List.filter (λ e, negb (touches_pipeline e)) cpu.1
            ∧ files_written gpu.1 = files_written cpu.1) as (H2&Hf&Hw).
    { subst gpu cpu. unfold diarize_audio, diarize_body, try_except, failed_save.
      io_unfold. simpl.
      destruct (from_pretrained_error w); simpl; [done|].
      rewrite Hto. simpl. rewrite Hpipe.
      destruct (pipeline w Cpu audio _) as [e|d]; simpl; [done|].
      destruct (itertracks_error d); simpl; [done|].
      destruct (truthy_path out) as [path|]; simpl; [|done].
      by destruct (write_error w _ _). }
    split_and!; try done. unfold returned. by rewrite H2.
Qed.

Lemma accelerator_matters_only_through_pipeline_witness :
  to_error good_world Cuda = None
  ∧ pipeline good_world Cuda "a.wav" (diarization_params (Some 2) (Some 4))
    = pipeline good_world Cpu "a.wav" (diarization_params (Some 2) (Some 4))
  ∧ returned (diarize_audio sample_repr (set_cuda true good_world) "a.wav" None
                (Some 2) (Some 4))
    = returned (diarize_audio sample_repr (set_cuda false good_world) "a.wav" None
                  (Some 2) (Some 4))
  ∧ from_pretrained_error gpu_failing_world = None
  ∧ to_error gpu_failing_world Cuda = Some (PyExc RuntimeError "CUDA out of memory")
  ∧ returned (diarize_audio sample_repr (set_cuda true gpu_failing_world) "a.wav" None
                None None) = None.
Proof.
  split; [reflexivity|]. split; [reflexivity|]. split.
  - apply (proj2 (accelerator_matters_only_through_pipeline sample_repr good_world "a.wav"
                    None (Some 2) (Some 4)) eq_refl eq_refl).
  - split; [reflexivity|]. split; [reflexivity|].
    apply (proj1 (accelerator_matters_only_through_pipeline sample_repr gpu_failing_world
                    "a.wav" None None None)
             (PyExc RuntimeError "CUDA out of memory") eq_refl eq_refl).
Defined.

(** ** The two serialisations *)

Lemma append_cons c s k : String c s +:+ k = String c (s +:+ k).
Proof. reflexivity. Qed.

Lemma append_nil_l k : "" +:+ k = k.
Proof. reflexivity. Qed.

Lemma append_assoc (a b c : string) : (a +:+ b) +:+ c = a +:+ (b +:+ c).
Proof. induction a as [|x a IH]; [done|]. by rewrite !append_cons, IH. Qed.

Lemma strip_from_app st a k :
  strip_from st (a +:+ k) = strip_from st a +:+ strip_from (lex_end st a) k.
Proof.
  revert st. induction a as [|c a IH]; intros st; [done|].
  rewrite append_cons. simpl. rewrite IH. by destruct (kept st c).
Qed.

Lemma lex_end_app st a k : lex_end st (a +:+ k) = lex_end (lex_end st a) k.
Proof. revert st. induction a as [|c a IH]; intros st; [done|]. rewrite append_cons. apply IH. Qed.

Lemma all_chars_weaken (f g : ascii → bool) s :
  (∀ c, f c = true → g c = true) → all_chars f s = true → all_chars g s = true.
Proof.
  intros Hfg. induction s as [|c s IH]; [done|]. simpl.
  intros [Hc Hs]%andb_prop. by rewrite (Hfg c Hc), IH.
Qed.

Lemma plain_solid s : all_chars plain_char s = true → solid s.
Proof.
  unfold solid. induction s as [|c s IH]; [done|]. simpl.
  intros [Hc Hs]%andb_prop. unfold plain_char in Hc.
  apply andb_prop in Hc as [Hsp Hq]. rewrite Hsp. simpl.
  apply negb_true_iff in Hq. rewrite Hq.
  destruct (IH Hs) as [-> ->]. done.
Qed.

Lemma float_char_plain c : float_char c = true → plain_char c = true.
Proof. destruct c as [[] [] [] [] [] [] [] []]; vm_compute; congruence. Qed.

Lemma uint_plain d : all_chars plain_char (NilEmpty.string_of_uint d) = true.
Proof. induction d; simpl; try done. Qed.

Lemma str_of_Z_solid n : solid (str_of_Z n).
Proof.
  apply plain_solid. unfold str_of_Z, NilZero.string_of_int, NilZero.string_of_uint.
  destruct (Z.to_int n) as [d|d]; destruct d; simpl; try done; apply uint_plain.
Qed.

Lemma spaces_blank n : blank (spaces n).
Proof. unfold blank. induction n as [|n IH]; [done|]. simpl. done. Qed.

(** Every replacement text is read without leaving the string literal. *)
Lemma escape_char_inside c :
  strip_from Inside (escape_char c) = escape_char c
  ∧ lex_end Inside (escape_char c) = Inside.
Proof. destruct c as [[] [] [] [] [] [] [] []]; split; vm_compute; reflexivity. Qed.

Lemma escape_all_inside s :
  strip_from Inside (escape_all s) = escape_all s
  ∧ lex_end Inside (escape_all s) = Inside.
Proof.
  induction s as [|c s [IH1 IH2]]; [done|]. simpl.
  destruct (escape_char_inside c) as [H1 H2].
  by rewrite strip_from_app, lex_end_app, H1, H2, IH1, IH2.
Qed.

Lemma string_literal_solid s : solid (encode_basestring_ascii s).
Proof.
  unfold solid, encode_basestring_ascii.
  destruct (escape_all_inside s) as [H1 H2].
  change (strip_from Outside (String dquote ?x))
    with (String dquote (strip_from Inside x)).
  change (lex_end Outside (String dquote ?x)) with (lex_end Inside x).
  by rewrite strip_from_app, lex_end_app, H1, H2.
Qed.

Lemma solid_app a b : solid a → solid b → solid (a +:+ b).
Proof.
  intros [Ha1 Ha2] [Hb1 Hb2]. unfold solid.
  by rewrite strip_from_app, lex_end_app, Ha1, Ha2, Hb1, Hb2.
Qed.

Lemma newline_indent_blank indent level : blank (newline_indent indent level).
Proof.
  unfold newline_indent. destruct indent as [k|]; [|done].
  destruct (spaces_blank (k * level)) as [H1 H2]. by split.
Qed.

Section Whitespace.

Variable float_repr : float → string.
Hypothesis float_repr_chars :
  ∀ x, finite x → all_chars float_char (float_repr x) = true.

Lemma floatstr_solid x : solid (floatstr float_repr x).
Proof.
  unfold floatstr.
  destruct (PrimFloat.eqb x x) eqn:H1; simpl; [|by apply plain_solid].
  destruct (PrimFloat.eqb x infinity) eqn:H2; [by apply plain_solid|].
  destruct (PrimFloat.eqb x neg_infinity) eqn:H3; [by apply plain_solid|].
  apply plain_solid. eapply all_chars_weaken; [apply float_char_plain|].
  by apply float_repr_chars.
Qed.

Lemma strips_to_app a a' b b' :
  strips_to a a' → strips_to b b' → strips_to (a +:+ b) (a' +:+ b').
Proof.
  intros [Ha1 Ha2] [Hb1 Hb2]. unfold strips_to.
  by rewrite strip_from_app, lex_end_app, Ha1, Ha2, Hb1, Hb2.
Qed.

Lemma strips_to_join sep sep' (chunks chunks' : list string) :
  strips_to sep sep' →
  Forall2 strips_to chunks chunks' →
  strips_to (join sep chunks) (join sep' chunks').
Proof.
  intros Hsep. induction 1 as [|c c' cs cs' Hc Hcs IH]; [done|].
  destruct Hcs as [|d d' ds ds' Hd Hds]; [done|].
  change (strips_to (c +:+ sep +:+ join sep (d :: ds))
                    (c' +:+ sep' +:+ join sep' (d' :: ds'))).
  by repeat apply strips_to_app.
Qed.

Lemma item_separator_strips indent level :
  strips_to (item_separator indent +:+ newline_indent indent level) ",".
Proof.
  apply (strips_to_app _ "," _ ""); [by destruct indent|].
  apply newline_indent_blank.
Qed.

Lemma strips_to_container opening closing indent level chunks chunks' :
  solid opening → solid closing →
  Forall2 strips_to chunks chunks' →
  strips_to (container opening closing indent level chunks)
            (opening +:+ join "," chunks' +:+ closing).
Proof.
  intros Ho Hc Hchunks. unfold container.
  destruct Hchunks as [|c c' cs cs' Hc1 Hcs].
  { by apply (strips_to_app _ _ _ closing). }
  apply strips_to_app; [done|].
  apply (strips_to_app _ "" _ _); [apply newline_indent_blank|].
  apply strips_to_app.
  { apply strips_to_join; [apply item_separator_strips|by constructor]. }
  apply (strips_to_app _ "" _ _); [apply newline_indent_blank|done].
Qed.

(** Induction on [json] with the items of lists and dictionaries. *)
Lemma json_nested_ind (P : json → Prop) :
  (∀ n, P (JInt n)) → (∀ x, P (JFloat x)) → (∀ s, P (JStr s)) →
  (∀ items, Forall P items → P (JList items)) →
  (∀ items, Forall (λ kv, P (snd kv)) items → P (JDict items)) →
  ∀ v, P v.
Proof.
  intros HInt HFloat HStr HList HDict. fix IH 1. intros [n|x|s|items|items].
  - apply HInt.
  - apply HFloat.
  - apply HStr.
  - apply HList. induction items as [|v items IHitems]; constructor; [apply IH|done].
  - apply HDict. induction items as [|[k v] items IHitems]; constructor; [apply IH|done].
Qed.

(** Whatever the indent and the nesting level, the encoder's text is the
    compact text with white space added between tokens. *)
Lemma encode_strips_to_compact v :
  ∀ indent level, strips_to (encode float_repr indent level v) (compact float_repr v).
Proof.
  induction v as [n|x|s|items IH|items IH] using json_nested_ind; intros indent level.
  - apply str_of_Z_solid.
  - apply floatstr_solid.
  - apply string_literal_solid.
  - simpl. apply strips_to_container; [done|done|].
    induction IH as [|v items Hv _ IHitems]; constructor; [apply Hv|done].
  - simpl. apply strips_to_container; [done|done|].
    induction IH as [|[k v] items Hv _ IHitems]; constructor; [|done].
    simpl. apply strips_to_app; [apply string_literal_solid|].
    apply (strips_to_app ": " ":"); [done|apply Hv].
Qed.

Lemma dump_indent2_dumps_agree v :
  strip_whitespace (dump_indent2 float_repr v) = strip_whitespace (dumps float_repr v)
  ∧ strip_whitespace (dumps float_repr v) = compact float_repr v.
Proof.
  unfold strip_whitespace, dump_indent2, dumps.
  destruct (encode_strips_to_compact v (Some 2%nat) 0) as [-> _].
  by destruct (encode_strips_to_compact v None 0) as [-> _].
Qed.

End Whitespace.

Lemma sample_repr_chars x : all_chars float_char (sample_repr x) = true.
Proof. unfold sample_repr. repeat case_match; reflexivity. Qed.

Lemma compact_json_of_segments float_repr (segs : list segment) :
  map (compact float_repr) (json_of_segment <$> segs)
  = map (segment_text float_repr) segs.
Proof.
  induction segs as [|s segs IH]; [done|].
  change (compact float_repr (json_of_segment s)
          :: map (compact float_repr) (json_of_segment <$> segs)
          = segment_text float_repr s :: map (segment_text float_repr) segs).
  rewrite IH. f_equal.
Qed.

(** The compact text of the result dictionary is the document written out
    key by key. *)
Lemma compact_json_of_result float_repr r :
  compact float_repr (json_of_result r) = result_text float_repr r.
Proof.
  unfold json_of_result, result_text.
  cbn [compact map fst snd]. by rewrite compact_json_of_segments.
Qed.

(** C2: on every successful run one result value is serialised twice: the
    result built from [sys.argv[1]] and the tracks the pipeline returned
    for it.  The compact text is the only line on standard output, whether
    or not an output path was given; when a (non-empty) output path was
    given, the file written holds the indented text of the same value.
    Both texts are the JSON document of that result, with its three keys
    and its segments in order, once the white space between tokens is
    removed, and so equal each other up to that white space. *)
Theorem saved_file_matches_stdout float_repr w argv :
  (∀ x, finite x → all_chars float_char (float_repr x) = true) →
  exit_status (run float_repr w argv) = 0 →
  ∃ audio mn mx d r,
    argv !! 1%nat = Some audio
    ∧ int_arg w argv 3 = ([], Ret mn) ∧ int_arg w argv 4 = ([], Ret mx)
    ∧ pipeline w (device_of w) audio (diarization_params mn mx) = inr d
    ∧ r = make_result audio (segment_of_track <$> itertracks d)
    ∧ stdout_of (trace (run float_repr w argv)) = [dumps float_repr (json_of_result r)]
    ∧ files_written (trace (run float_repr w argv))
      = match truthy_path (argv !! 2%nat) with
        | Some path => [(path, dump_indent2 float_repr (json_of_result r))]
        | None => []
        end
    ∧ (∀ path, argv !! 2%nat = Some path → path ≠ "" →
         files_written (trace (run float_repr w argv))
         = [(path, dump_indent2 float_repr (json_of_result r))])
    ∧ strip_whitespace (dumps float_repr (json_of_result r)) = result_text float_repr r
    ∧ strip_whitespace (dump_indent2 float_repr (json_of_result r))
      = result_text float_repr r
    ∧ strip_whitespace (dump_indent2 float_repr (json_of_result r))
      = strip_whitespace (dumps float_repr (json_of_result r)).
Proof.
  intros Hchars Hzero.
  destruct (behaviour_zero_inv float_repr w argv _ (run_behaviour float_repr w argv) Hzero)
    as (audio&mn&mx&t&r&Hi&Ha&H3&H4&Hex&Hb&->).
  pose proof Hb as (d&_&_&Hpipe&_&Hr&_&Ht)%diarize_body_Ret_inv.
  exists audio, mn, mx, d, r.
  assert (files_written (PathExists audio :: t ++ summary float_repr r)
          = match truthy_path (argv !! 2%nat) with
            | Some path => [(path, dump_indent2 float_repr (json_of_result r))]
            | None => []
            end) as Hfiles.
  { rewrite Ht.
    change (PathExists audio :: ?a ++ ?b) with ([PathExists audio] ++ a ++ b).
    rewrite !files_written_app, files_written_call_prefix, files_written_save_events.
    simpl. by rewrite app_nil_r. }
  destruct (dump_indent2_dumps_agree float_repr Hchars (json_of_result r)) as [Heq Hc].
  rewrite compact_json_of_result in Hc.
  split_and!; try done.
  - rewrite Ht. unfold trace.
    change (PathExists audio :: ?a ++ ?b) with ([PathExists audio] ++ a ++ b).
    by rewrite !stdout_of_app, stdout_of_call_prefix, stdout_of_save_events.
  - intros path Hout Hne. unfold trace. rewrite Hfiles, Hout. simpl.
    by apply String.eqb_neq in Hne as ->.
  - by rewrite Heq.
Qed.

Lemma sample_repr_finite_chars x : finite x → all_chars float_char (sample_repr x) = true.
Proof. intros _. apply sample_repr_chars. Qed.

Lemma saved_file_matches_stdout_witness :
  (∀ x, finite x → all_chars float_char (sample_repr x) = true)
  ∧ exit_status (run sample_repr good_world ["diarize_speakers.py"; "a.wav"; "out.json"]) = 0
  ∧ ∃ r,
      r = make_result "a.wav" (segment_of_track <$> sample_tracks)
      ∧ stdout_of (trace (run sample_repr good_world
                            ["diarize_speakers.py"; "a.wav"; "out.json"]))
        = [dumps sample_repr (json_of_result r)]
      ∧ files_written (trace (run sample_repr good_world
                                ["diarize_speakers.py"; "a.wav"; "out.json"]))
        = [("out.json", dump_indent2 sample_repr (json_of_result r))]
      ∧ strip_whitespace (dump_indent2 sample_repr (json_of_result r))
        = result_text sample_repr r.
Proof.
  split; [exact sample_repr_finite_chars|]. split; [vm_compute; reflexivity|].
  destruct (saved_file_matches_stdout sample_repr good_world
              ["diarize_speakers.py"; "a.wav"; "out.json"] sample_repr_finite_chars eq_refl)
    as (audio&mn&mx&d&r&Ha&_&_&Hpipe&Hr&Hout&_&Hfile&_&Hstrip&_).
  exists r. split.
  - injection Ha as <-. injection Hpipe as <-. exact Hr.
  - split; [exact Hout|]. split; [|exact Hstrip].
    apply (Hfile "out.json"); [reflexivity|discriminate].
Defined.

(** * Further properties of the script *)

(** ** What [main] reads *)

(** X2: [main] reads [sys.argv[1]] to [sys.argv[4]] and nothing else: the
    program name and any argument after the fourth have no effect on the
    run. *)
Theorem run_reads_four_arguments float_repr w argv argv' :
  (∀ i, (1 ≤ i ≤ 4)%nat → argv !! i = argv' !! i) →
  run float_repr w argv = run float_repr w argv'.
Proof.
  intros H. unfold run, script, main, int_arg.
  rewrite (H 1%nat), (H 2%nat), (H 3%nat), (H 4%nat) by lia. done.
Qed.

Lemma run_reads_four_arguments_witness :
  (∀ i, (1 ≤ i ≤ 4)%nat →
        ["diarize_speakers.py"; "a.wav"; "out.json"; "2"; "4"] !! i
        = ["./diarize.py"; "a.wav"; "out.json"; "2"; "4"; "--verbose"] !! i)
  ∧ run sample_repr good_world ["diarize_speakers.py"; "a.wav"; "out.json"; "2"; "4"]
    = run sample_repr good_world ["./diarize.py"; "a.wav"; "out.json"; "2"; "4"; "--verbose"].
Proof.
  assert (∀ i, (1 ≤ i ≤ 4)%nat →
        ["diarize_speakers.py"; "a.wav"; "out.json"; "2"; "4"] !! i
        = ["./diarize.py"; "a.wav"; "out.json"; "2"; "4"; "--verbose"] !! i) as H.
  { intros i [H1 H4]. do 5 (destruct i as [|i]; [first [lia|reflexivity]|]). lia. }
  split; [exact H|].
  exact (run_reads_four_arguments sample_repr good_world _ _ H).
Defined.

Lemma int_arg_Ret_inv w argv i x :
  int_arg w argv i = ([], Ret x) →
  ∀ v, x = Some v ↔ ∃ s, argv !! i = Some s ∧ py_int w s = Some v.
Proof.
  unfold int_arg. destruct (argv !! i) as [s|].
  - destruct (py_int w s) as [n|] eqn:Hs; [|discriminate].
    intros [= <-] v. split.
    + intros [= <-]. eauto.
    + intros (s'&[= <-]&Hs'). congruence.
  - intros [= <-] v. split; [done|]. by intros (s&?&_).
Qed.

Lemma pipeline_calls_cons_other e t :
  is_call e = false → pipeline_calls (e :: t) = pipeline_calls t.
Proof. by destruct e. Qed.

(** The pipeline calls of a whole run. *)
Lemma pipeline_calls_run float_repr w argv :
  pipeline_calls (trace (run float_repr w argv)) = []
  ∨ ∃ audio mn mx,
      argv !! 1%nat = Some audio
      ∧ int_arg w argv 3 = ([], Ret mn) ∧ int_arg w argv 4 = ([], Ret mx)
      ∧ pipeline_calls (trace (run float_repr w argv))
        = [(audio, diarization_params mn mx)].
Proof.
  destruct (run_behaviour float_repr w argv)
    as [| | | | |a mn mx t e _ Ha H3 H4 _ Hb|a mn mx t r _ Ha H3 H4 _ Hb|];
    try (by left).
  - pose proof (pipeline_calls_diarize_body float_repr w a (argv !! 2%nat) mn mx) as Hc.
    rewrite Hb in Hc. unfold trace.
    rewrite pipeline_calls_cons_other, pipeline_calls_app by done.
    change (pipeline_calls [Stderr _]) with (@nil (string * list (string * Z))).
    rewrite app_nil_r. destruct Hc as [Hc|Hc]; [by left|].
    right. exists a, mn, mx. done.
  - pose proof (pipeline_calls_diarize_body float_repr w a (argv !! 2%nat) mn mx) as Hc.
    rewrite Hb in Hc. unfold trace.
    rewrite pipeline_calls_cons_other, pipeline_calls_app by done.
    change (pipeline_calls (summary float_repr r))
      with (@nil (string * list (string * Z))).
    rewrite app_nil_r. destruct Hc as [Hc|Hc]; [by left|].
    right. exists a, mn, mx. done.
Qed.

(** X3: from the command line to the pipeline.  Whenever a run calls the
    pipeline, the call carries [sys.argv[1]] unchanged, and [min_speakers]
    (resp. [max_speakers]) is passed with value [v] exactly when the third
    (resp. fourth) argument reads as the integer [v], whatever [int] accepts,
    and [v] is not zero.
    Negative bounds are passed on as they are. *)
Theorem command_line_bounds_reach_pipeline float_repr w argv a kwargs :
  (a, kwargs) ∈ pipeline_calls (trace (run float_repr w argv)) →
  argv !! 1%nat = Some a
  ∧ (∀ v, ("min_speakers", v) ∈ kwargs
          ↔ v ≠ 0 ∧ ∃ s, argv !! 3%nat = Some s ∧ py_int w s = Some v)
  ∧ (∀ v, ("max_speakers", v) ∈ kwargs
          ↔ v ≠ 0 ∧ ∃ s, argv !! 4%nat = Some s ∧ py_int w s = Some v)
  ∧ pipeline_calls (trace (run float_repr w argv)) = [(a, kwargs)].
Proof.
  destruct (pipeline_calls_run float_repr w argv)
    as [->|(audio&mn&mx&Ha&H3&H4&->)].
  { by intros ?%elem_of_nil. }
  intros [= -> ->]%list_elem_of_singleton.
  pose proof (int_arg_Ret_inv _ _ _ _ H3) as Hmn.
  pose proof (int_arg_Ret_inv _ _ _ _ H4) as Hmx.
  unfold diarization_params. split_and!; [done| | |done].
  - intros v. rewrite elem_of_app, !elem_of_kwarg, <- Hmn.
    intuition (congruence || auto).
  - intros v. rewrite elem_of_app, !elem_of_kwarg, <- Hmx.
    intuition (congruence || auto).
Qed.

Lemma command_line_bounds_reach_pipeline_witness :
  ("a.wav", [("min_speakers", -1)])
    ∈ pipeline_calls (trace (run sample_repr good_world
                               ["diarize_speakers.py"; "a.wav"; ""; "-1"; "0"]))
  ∧ (∀ v, ("max_speakers", v) ∈ [("min_speakers", -1)]
          ↔ v ≠ 0 ∧ ∃ s, ["diarize_speakers.py"; "a.wav"; ""; "-1"; "0"] !! 4%nat = Some s
                         ∧ py_int good_world s = Some v).
Proof.
  assert (("a.wav", [("min_speakers", -1)])
    ∈ pipeline_calls (trace (run sample_repr good_world
                               ["diarize_speakers.py"; "a.wav"; ""; "-1"; "0"]))) as Hin
    by (vm_compute; left).
  split; [exact Hin|].
  exact (proj1 (proj2 (proj2 (command_line_bounds_reach_pipeline sample_repr good_world
           ["diarize_speakers.py"; "a.wav"; ""; "-1"; "0"] "a.wav"
           [("min_speakers", -1)] Hin)))).
Defined.

(** ** What a run does and does not do *)

Lemma truthy_path_Some out path :
  truthy_path out = Some path ↔ out = Some path ∧ path ≠ "".
Proof.
  unfold truthy_path. destruct out as [p|].
  - destruct (String.eqb_spec p "") as [->|Hne].
    + split; [done|]. by intros [[= <-] ?].
    + split; [by intros [= <-]|]. by intros [[= <-] _].
  - split; [done|]. by intros [? _].
Qed.

Lemma int_arg_Ret_parses w argv i x s :
  int_arg w argv i = ([], Ret x) → argv !! i = Some s → is_Some (py_int w s).
Proof.
  unfold int_arg. intros H Hs. rewrite Hs in H.
  destruct (py_int w s); [by eexists|discriminate].
Qed.

Lemma int_arg_Raise_inv w argv i e :
  int_arg w argv i = ([], Raise e) →
  exc_type e = ValueError ∧ ∃ s, argv !! i = Some s ∧ py_int w s = None.
Proof.
  unfold int_arg. destruct (argv !! i) as [s|]; [|discriminate].
  destruct (py_int w s) eqn:Hs; [discriminate|].
  intros [= <-]. split; [done|]. eauto.
Qed.

Lemma body_event_call_prefix w audio params :
  forallb body_event (call_prefix w audio params) = true.
Proof. unfold call_prefix. by destruct (cuda_is_available w). Qed.

Lemma body_event_save_events out text : forallb body_event (save_events out text) = true.
Proof. unfold save_events. by destruct (truthy_path out). Qed.

Lemma body_event_failed_save w path text :
  forallb body_event (failed_save_events w path text) = true.
Proof. unfold failed_save_events. by destruct (left_on_failure w path text). Qed.

(** Whatever its outcome, the body loads, moves to the accelerator, prints
    on standard error, calls and saves; nothing else. *)
Lemma diarize_body_events float_repr w audio out mn mx :
  forallb body_event (diarize_body float_repr w audio out mn mx).1 = true.
Proof.
  destruct (diarize_body float_repr w audio out mn mx) as [t [r|e|c]] eqn:Hb; simpl.
  - apply diarize_body_Ret_inv in Hb as (d&_&_&_&_&_&_&->).
    by rewrite forallb_app, body_event_call_prefix, body_event_save_events.
  - apply diarize_body_Raise_inv in Hb
      as [[_ ->]|[(_&_&->)|[[-> _]|(d&path&_&_&_&_&->)]]]; [done|done| |].
    + apply body_event_call_prefix.
    + by rewrite forallb_app, body_event_call_prefix, body_event_failed_save.
  - by apply diarize_body_no_exit in Hb.
Qed.

Lemma body_event_elem t ev : forallb body_event t = true → ev ∈ t → body_event ev = true.
Proof.
  intros Hall Hin%list_elem_of_In. rewrite forallb_forall in Hall. by apply Hall.
Qed.

(** X4: the pipeline library is loaded, moved or called only in runs whose
    imports worked, whose integer arguments (if any) are accepted by [int] and
    whose audio file exists; the existence check is the first thing such a
    run does. *)
Theorem pipeline_used_only_after_checks float_repr w argv ev :
  ev ∈ trace (run float_repr w argv) → touches_pipeline ev = true →
  import_error w = None
  ∧ ∃ audio,
      argv !! 1%nat = Some audio ∧ path_exists w audio = true
      ∧ (∀ s, argv !! 3%nat = Some s → is_Some (py_int w s))
      ∧ (∀ s, argv !! 4%nat = Some s → is_Some (py_int w s))
      ∧ head (trace (run float_repr w argv)) = Some (PathExists audio).
Proof.
  destruct (run_behaviour float_repr w argv)
    as [| | | | |a mn mx t e Hi Ha H3 H4 Hex Hb|a mn mx t r Hi Ha H3 H4 Hex Hb|];
    unfold trace.
  1-5,8: intros Hin%list_elem_of_In Ht; simpl in Hin;
       repeat (destruct Hin as [<-|Hin]; [discriminate|]); destruct Hin.
  - intros _ _. split; [done|]. exists a.
    split_and!; eauto using int_arg_Ret_parses.
  - intros _ _. split; [done|]. exists a.
    split_and!; eauto using int_arg_Ret_parses.
Qed.

Lemma pipeline_used_only_after_checks_witness :
  PipelineCall "a.wav" [] ∈ trace (run sample_repr good_world ["diarize_speakers.py"; "a.wav"])
  ∧ touches_pipeline (PipelineCall "a.wav" []) = true
  ∧ import_error good_world = None
  ∧ ∃ audio,
      ["diarize_speakers.py"; "a.wav"] !! 1%nat = Some audio
      ∧ path_exists good_world audio = true
      ∧ (∀ s, ["diarize_speakers.py"; "a.wav"] !! 3%nat = Some s → is_Some (py_int good_world s))
      ∧ (∀ s, ["diarize_speakers.py"; "a.wav"] !! 4%nat = Some s → is_Some (py_int good_world s))
      ∧ head (trace (run sample_repr good_world ["diarize_speakers.py"; "a.wav"]))
        = Some (PathExists audio).
Proof.
  assert (PipelineCall "a.wav" []
            ∈ trace (run sample_repr good_world ["diarize_speakers.py"; "a.wav"])) as Hin.
  { vm_compute. do 3 right. left. }
  split; [exact Hin|]. split; [reflexivity|].
  exact (pipeline_used_only_after_checks sample_repr good_world
           ["diarize_speakers.py"; "a.wav"] (PipelineCall "a.wav" []) Hin eq_refl).
Defined.

Lemma files_written_cons_other e t :
  (∀ p c, e ≠ FileWrite p c) → files_written (e :: t) = files_written t.
Proof. destruct e; try done. intros H. by destruct (H path content). Qed.

Lemma call_prefix_no_file w audio params ev :
  ev ∈ call_prefix w audio params → touches_file ev = false.
Proof.
  unfold call_prefix. intros Hin%list_elem_of_In.
  destruct (cuda_is_available w); simpl in Hin;
    repeat (destruct Hin as [<-|Hin]; [done|]); destruct Hin.
Qed.

(** X5: the output file is touched by the save alone.  A completed write
    belongs to a run that ends with status 0, is the only one and holds
    the text at the path [sys.argv[2]]; a file left behind by a save that
    raised belongs to a run that ends with status 1 and has completed no
    write.  In both cases the path is [sys.argv[2]] and is not empty. *)
Theorem output_file_touched_only_by_save float_repr w argv ev :
  ev ∈ trace (run float_repr w argv) → touches_file ev = true →
  ∃ path text,
    argv !! 2%nat = Some path ∧ path ≠ ""
    ∧ ((ev = FileWrite path text
        ∧ write_error w path text = None
        ∧ exit_status (run float_repr w argv) = 0
        ∧ files_written (trace (run float_repr w argv)) = [(path, text)])
       ∨ (∃ remains e,
            ev = FileTruncated path remains
            ∧ write_error w path text = Some e
            ∧ left_on_failure w path text = Some remains
            ∧ exit_status (run float_repr w argv) = 1
            ∧ files_written (trace (run float_repr w argv)) = [])).
Proof.
  destruct (run_behaviour float_repr w argv)
    as [| | | | |a mn mx t e Hi Ha H3 H4 Hex Hb|a mn mx t r Hi Ha H3 H4 Hex Hb|];
    unfold trace, exit_status.
  1-5,8: intros Hin%list_elem_of_In Ht; simpl in Hin;
         repeat (destruct Hin as [<-|Hin]; [discriminate|]); destruct Hin.
  - intros Hin Hev.
    pose proof (diarize_body_Raise_quiet _ _ _ _ _ _ _ _ Hb) as [_ Hf].
    rewrite files_written_cons_other, files_written_app, Hf by done.
    apply elem_of_cons in Hin as [->|Hin]; [discriminate|].
    apply elem_of_app in Hin as [Hin|Hin];
      [|apply list_elem_of_singleton in Hin as ->; discriminate].
    apply diarize_body_Raise_inv in Hb
      as [[_ ->]|[(_&_&->)|[[-> _]|(d&path&_&_&Hp&Hw&->)]]].
    + apply list_elem_of_In in Hin. simpl in Hin.
      repeat (destruct Hin as [<-|Hin]; [discriminate|]); destruct Hin.
    + apply list_elem_of_In in Hin. simpl in Hin.
      repeat (destruct Hin as [<-|Hin]; [discriminate|]); destruct Hin.
    + apply call_prefix_no_file in Hin. congruence.
    + apply elem_of_app in Hin as [Hin|Hin];
        [apply call_prefix_no_file in Hin; congruence|].
      unfold failed_save_events in Hin.
      destruct (left_on_failure w path _) as [remains|] eqn:Hl;
        [|by apply elem_of_nil in Hin].
      apply list_elem_of_singleton in Hin as ->.
      apply truthy_path_Some in Hp as [Hp Hne].
      eexists path, _. split; [done|]. split; [done|]. right.
      exists remains, e. by split_and!.
  - intros Hin Hev.
    apply diarize_body_Ret_inv in Hb as (d&_&_&_&_&_&Hw&->).
    rewrite files_written_cons_other, !files_written_app,
      files_written_call_prefix, files_written_save_events by done.
    change (files_written (summary float_repr r)) with (@nil (string * string)).
    rewrite app_nil_r, app_nil_l.
    apply elem_of_cons in Hin as [->|Hin]; [discriminate|].
    apply elem_of_app in Hin as [Hin|Hin]; [apply elem_of_app in Hin as [Hin|Hin]|].
    + apply call_prefix_no_file in Hin. congruence.
    + unfold save_events in Hin.
      destruct (truthy_path (argv !! 2%nat)) as [path|] eqn:Hp;
        [|by apply elem_of_nil in Hin].
      pose proof (Hw _ eq_refl) as Hw'.
      apply truthy_path_Some in Hp as [Hp Hne].
      apply elem_of_cons in Hin as [->|Hin].
      * eexists path, _. split; [done|]. split; [done|]. left. by split_and!.
      * apply list_elem_of_singleton in Hin as ->. discriminate.
    + apply list_elem_of_In in Hin. simpl in Hin.
      repeat (destruct Hin as [<-|Hin]; [discriminate|]); destruct Hin.
Qed.

Lemma output_file_touched_only_by_save_witness :
  FileTruncated "out.json" ""
    ∈ trace (run sample_repr full_disk_world ["diarize_speakers.py"; "a.wav"; "out.json"])
  ∧ touches_file (FileTruncated "out.json" "") = true
  ∧ exit_status (run sample_repr full_disk_world
                   ["diarize_speakers.py"; "a.wav"; "out.json"]) = 1.
Proof.
  assert (FileTruncated "out.json" ""
    ∈ trace (run sample_repr full_disk_world
               ["diarize_speakers.py"; "a.wav"; "out.json"])) as Hin.
  { vm_compute. do 4 right. left. }
  split; [exact Hin|]. split; [reflexivity|].
  destruct (output_file_touched_only_by_save sample_repr full_disk_world
              ["diarize_speakers.py"; "a.wav"; "out.json"] _ Hin eq_refl)
    as (path&text&_&_&[(Hev&_)|(remains&e&_&_&_&Hst&_)]).
  - discriminate Hev.
  - exact Hst.
Defined.

(** X7: [Path(audio_file).exists()] is called outside any [try]: when it
    raises, nothing catches the exception.  The run is the existence check
    and the interpreter's traceback, with status 1; the pipeline library is
    not touched. *)
Theorem exists_error_is_uncaught float_repr w argv audio mn mx e :
  import_error w = None → argv !! 1%nat = Some audio →
  int_arg w argv 3 = ([], Ret mn) → int_arg w argv 4 = ([], Ret mx) →
  path_exists w audio = Raises e →
  run float_repr w argv = Process [PathExists audio; Traceback e] 1.
Proof.
  intros Himp Ha H3 H4 Hex. unfold run, script, main. rewrite Himp, Ha.
  unfold mbind at 1, io_mbind, io_bind. rewrite H3.
  unfold mbind at 1, io_mbind, io_bind. rewrite H4.
  rewrite Hex. done.
Qed.

Lemma exists_error_is_uncaught_witness :
  path_exists unreadable_world "a.wav"
  = Raises (PyExc OSError "[Errno 36] File name too long")
  ∧ run sample_repr unreadable_world ["diarize_speakers.py"; "a.wav"]
    = Process [PathExists "a.wav";
               Traceback (PyExc OSError "[Errno 36] File name too long")] 1.
Proof.
  split; [reflexivity|].
  exact (exists_error_is_uncaught sample_repr unreadable_world
           ["diarize_speakers.py"; "a.wav"] "a.wav" None None
           (PyExc OSError "[Errno 36] File name too long")
           eq_refl eq_refl eq_refl eq_refl eq_refl).
Defined.

(** ** The characters of the two JSON texts *)

Lemma all_chars_app f a b : all_chars f (a +:+ b) = all_chars f a && all_chars f b.
Proof.
  induction a as [|c a IH]; [done|].
  rewrite append_cons. simpl. by rewrite IH, andb_assoc.
Qed.

Lemma escape_char_printable c : all_chars printable (escape_char c) = true.
Proof. destruct c as [[] [] [] [] [] [] [] []]; vm_compute; reflexivity. Qed.

Lemma escape_all_printable s : all_chars printable (escape_all s) = true.
Proof.
  induction s as [|c s IH]; [done|]. simpl.
  by rewrite all_chars_app, escape_char_printable, IH.
Qed.

Lemma string_literal_printable s : all_chars printable (encode_basestring_ascii s) = true.
Proof.
  unfold encode_basestring_ascii. simpl.
  by rewrite all_chars_app, escape_all_printable.
Qed.

Lemma uint_printable d : all_chars printable (NilEmpty.string_of_uint d) = true.
Proof. induction d; simpl; try done. Qed.

Lemma str_of_Z_printable n : all_chars printable (str_of_Z n) = true.
Proof.
  unfold str_of_Z, NilZero.string_of_int, NilZero.string_of_uint.
  destruct (Z.to_int n) as [d|d]; destruct d; simpl; try done; apply uint_printable.
Qed.

Lemma float_char_printable c : float_char c = true → printable c = true.
Proof. destruct c as [[] [] [] [] [] [] [] []]; vm_compute; congruence. Qed.

Lemma spaces_printable n : all_chars printable (spaces n) = true.
Proof. induction n as [|n IH]; [done|]. simpl. done. Qed.

Section Characters.

Variable float_repr : float → string.
Hypothesis float_repr_chars : ∀ x, all_chars float_char (float_repr x) = true.

(** The characters allowed in the text, and an indent whose line breaks
    are among them. *)
Variable allowed : ascii → bool.
Variable indent : option nat.
Hypothesis printable_allowed : ∀ c, printable c = true → allowed c = true.
Hypothesis breaks_allowed :
  ∀ level, all_chars allowed (newline_indent indent level) = true.

Lemma allowed_text s : all_chars printable s = true → all_chars allowed s = true.
Proof. by apply all_chars_weaken. Qed.

Lemma floatstr_printable x : all_chars printable (floatstr float_repr x) = true.
Proof.
  unfold floatstr. repeat case_match; try done.
  eapply all_chars_weaken; [apply float_char_printable|done].
Qed.

Lemma join_allowed sep chunks :
  all_chars allowed sep = true →
  Forall (λ c, all_chars allowed c = true) chunks →
  all_chars allowed (join sep chunks) = true.
Proof.
  intros Hsep. induction 1 as [|c cs Hc Hcs IH]; [done|].
  destruct cs as [|d ds]; [done|].
  change (all_chars allowed (c +:+ sep +:+ join sep (d :: ds)) = true).
  by rewrite !all_chars_app, Hc, Hsep, IH.
Qed.

Lemma container_allowed opening closing level chunks :
  all_chars printable opening = true → all_chars printable closing = true →
  Forall (λ c, all_chars allowed c = true) chunks →
  all_chars allowed (container opening closing indent level chunks) = true.
Proof.
  intros Ho%allowed_text Hc%allowed_text Hchunks. unfold container.
  destruct chunks as [|c cs]; [by rewrite all_chars_app, Ho, Hc|].
  rewrite !all_chars_app, Ho, Hc, !breaks_allowed, join_allowed; [done| |done].
  rewrite all_chars_app, breaks_allowed, andb_true_r.
  apply allowed_text. by destruct indent.
Qed.

Lemma encode_allowed v :
  ∀ level, all_chars allowed (encode float_repr indent level v) = true.
Proof.
  induction v as [n|x|s|items IH|items IH] using json_nested_ind; intros level.
  - apply allowed_text, str_of_Z_printable.
  - apply allowed_text, floatstr_printable.
  - apply allowed_text, string_literal_printable.
  - simpl. apply container_allowed; [done|done|].
    induction IH as [|v items Hv _ IHitems]; constructor; [apply Hv|done].
  - simpl. apply container_allowed; [done|done|].
    induction IH as [|[k v] items Hv _ IHitems]; constructor; [|done].
    cbn [fst snd]. rewrite !all_chars_app, Hv, andb_true_r.
    rewrite (allowed_text _ (string_literal_printable k)).
    by apply allowed_text.
Qed.

End Characters.

(** X8: both JSON texts are plain ASCII.  The text printed on standard
    output consists of the characters [' '] to ['~'] only, so it is a single
    line; the text saved to the file has in addition only line feeds. *)
Theorem json_texts_are_ascii float_repr v :
  (∀ x, all_chars float_char (float_repr x) = true) →
  all_chars printable (dumps float_repr v) = true
  ∧ all_chars printable_or_newline (dump_indent2 float_repr v) = true.
Proof.
  intros Hchars. split.
  - apply (encode_allowed float_repr Hchars printable None); [done|done].
  - apply (encode_allowed float_repr Hchars printable_or_newline (Some 2%nat)).
    + intros c Hc. unfold printable_or_newline. by rewrite Hc.
    + intros level. unfold newline_indent.
      change (all_chars printable_or_newline (spaces (2 * level)) = true).
      eapply all_chars_weaken; [|apply spaces_printable].
      intros c Hc. unfold printable_or_newline. by rewrite Hc.
Qed.

Lemma json_texts_are_ascii_witness :
  (∀ x, all_chars float_char (sample_repr x) = true)
  ∧ all_chars printable
      (dumps sample_repr (JDict [("name", JStr (String newline "caf" +:+ String "233" ""));
                                 ("times", JList [JFloat 0.5; JInt (-3)])])) = true
  ∧ all_chars printable_or_newline
      (dump_indent2 sample_repr
         (JDict [("name", JStr (String newline "caf" +:+ String "233" ""));
                 ("times", JList [JFloat 0.5; JInt (-3)])])) = true.
Proof.
  split; [exact sample_repr_chars|].
  exact (json_texts_are_ascii sample_repr _ sample_repr_chars).
Defined.

(** ** The speaker count *)

(** X9: [num_speakers] depends only on which labels occur among the
    segments: neither their order, nor their time stamps, nor how often a
    label repeats, nor the audio path changes it. *)
Theorem num_speakers_depends_on_label_set audio1 audio2 (segs1 segs2 : list segment) :
  (∀ x, x ∈ speaker <$> segs1 ↔ x ∈ speaker <$> segs2) →
  num_speakers (make_result audio1 segs1) = num_speakers (make_result audio2 segs2).
Proof.
  intros H. unfold make_result, count_speakers. simpl. f_equal.
  apply set_eq. intros x. by rewrite !elem_of_list_to_set.
Qed.

Lemma num_speakers_depends_on_label_set_witness :
  (∀ x, x ∈ speaker <$> [Segment 0 1 "A"; Segment 1 2 "B"; Segment 2 3 "A"]
        ↔ x ∈ speaker <$> [Segment 5 6 "B"; Segment 7 9 "A"])
  ∧ num_speakers (make_result "a.wav" [Segment 0 1 "A"; Segment 1 2 "B"; Segment 2 3 "A"])
    = num_speakers (make_result "b.wav" [Segment 5 6 "B"; Segment 7 9 "A"]).
Proof.
  assert (∀ x, x ∈ speaker <$> [Segment 0 1 "A"; Segment 1 2 "B"; Segment 2 3 "A"]
               ↔ x ∈ speaker <$> [Segment 5 6 "B"; Segment 7 9 "A"]) as H.
  { intros x. simpl. rewrite !elem_of_cons, !elem_of_nil. tauto. }
  split; [exact H|].
  exact (num_speakers_depends_on_label_set "a.wav" "b.wav" _ _ H).
Defined.

(** X10: one more segment raises the speaker count by one when its label
    is new and leaves it unchanged when the label occurred before. *)
Theorem count_speakers_one_more (segs : list segment) (s : segment) :
  count_speakers (segs ++ [s])
  = if bool_decide (speaker s ∈ speaker <$> segs)
    then count_speakers segs
    else S (count_speakers segs).
Proof.
  unfold count_speakers. rewrite fmap_app, list_to_set_app_L. simpl.
  rewrite (right_id_L ∅ (∪)).
  case_bool_decide as Hin.
  - f_equal. apply set_eq. intros x.
    rewrite elem_of_union, elem_of_singleton, elem_of_list_to_set.
    split; [intros [?| ->]; done|by left].
  - rewrite size_union, size_singleton; [lia|].
    intros x Hx ->%elem_of_singleton. by apply elem_of_list_to_set in Hx.
Qed.

(** ** Answers the script never asks for *)

(** Two worlds with the same [int] that answer the imports, the existence
    check and the body of [diarize_audio] alike give the same run. *)
Lemma run_ext float_repr w w' argv :
  py_int w' = py_int w →
  import_error w' = import_error w →
  (∀ audio, path_exists w' audio = path_exists w audio) →
  (∀ audio mn mx,
     diarize_body float_repr w' audio (argv !! 2%nat) mn mx
     = diarize_body float_repr w audio (argv !! 2%nat) mn mx) →
  run float_repr w' argv = run float_repr w argv.
Proof.
  intros Hpy Hi Hex Hb.
  assert (∀ i, int_arg w' argv i = int_arg w argv i) as Hint.
  { intros i. unfold int_arg. by rewrite Hpy. }
  unfold run, script, main, diarize_audio. rewrite Hi, !Hint.
  destruct (import_error w); [done|].
  destruct (argv !! 1%nat) as [audio|]; [|done].
  destruct (int_arg w argv 3) as [t3 [mn|e3|c3]]; try done.
  destruct (int_arg w argv 4) as [t4 [mx|e4|c4]]; try done.
  unfold mbind at 1 2 5 6, io_mbind, io_bind. rewrite Hex, Hb. done.
Qed.

Lemma diarize_body_no_save float_repr f w audio out mn mx :
  truthy_path out = None →
  diarize_body float_repr (with_write_error f w) audio out mn mx
  = diarize_body float_repr w audio out mn mx.
Proof.
  intros Hp. unfold diarize_body. simpl. rewrite Hp. done.
Qed.

(** X11: without an output path, or with the empty string as output path,
    nothing is saved and the file system is never asked to write: the run
    is the same whatever a write would have done. *)
Theorem no_output_path_no_write float_repr f w argv :
  argv !! 2%nat = None ∨ argv !! 2%nat = Some "" →
  run float_repr (with_write_error f w) argv = run float_repr w argv
  ∧ files_written (trace (run float_repr w argv)) = [].
Proof.
  intros Hout.
  assert (truthy_path (argv !! 2%nat) = None) as Hp by (by destruct Hout as [-> | ->]).
  split.
  - apply run_ext; [done|done|done|]. intros audio mn mx. by apply diarize_body_no_save.
  - destruct (run_behaviour float_repr w argv)
      as [| | | | |a mn mx t e Hi Ha H3 H4 Hex Hb|a mn mx t r Hi Ha H3 H4 Hex Hb|];
      unfold trace; try done.
    + apply diarize_body_Raise_quiet in Hb as [_ Hf].
      by rewrite files_written_cons_other, files_written_app, Hf.
    + apply diarize_body_Ret_inv in Hb as (d&_&_&_&_&_&_&->).
      rewrite files_written_cons_other, !files_written_app,
        files_written_call_prefix, files_written_save_events, Hp by done.
      done.
Qed.

Lemma no_output_path_no_write_witness :
  (["diarize_speakers.py"; "a.wav"; ""; "2"] !! 2%nat = None
   ∨ ["diarize_speakers.py"; "a.wav"; ""; "2"] !! 2%nat = Some "")
  ∧ run sample_repr (with_write_error (write_error readonly_world) good_world)
      ["diarize_speakers.py"; "a.wav"; ""; "2"]
    = run sample_repr good_world ["diarize_speakers.py"; "a.wav"; ""; "2"]
  ∧ files_written (trace (run sample_repr good_world
                            ["diarize_speakers.py"; "a.wav"; ""; "2"])) = [].
Proof.
  assert (["diarize_speakers.py"; "a.wav"; ""; "2"] !! 2%nat = None
          ∨ ["diarize_speakers.py"; "a.wav"; ""; "2"] !! 2%nat = Some "") as H
    by (right; reflexivity).
  split; [exact H|].
  exact (no_output_path_no_write sample_repr (write_error readonly_world) good_world
           ["diarize_speakers.py"; "a.wav"; ""; "2"] H).
Defined.

Lemma diarize_body_no_cuda float_repr f w audio out mn mx :
  cuda_is_available w = false →
  diarize_body float_repr (with_to_error f w) audio out mn mx
  = diarize_body float_repr w audio out mn mx
  ∧ ∀ d, PipelineTo d ∉ (diarize_body float_repr w audio out mn mx).1.
Proof.
  intros Hc. split.
  - unfold diarize_body. simpl. by rewrite Hc.
  - intros d Hin.
    destruct (diarize_body float_repr w audio out mn mx) as [t [r|e|c]] eqn:Hb;
      simpl in Hin.
    + apply diarize_body_Ret_inv in Hb as (?&_&_&_&_&_&_&->).
      unfold call_prefix, save_events in Hin. rewrite Hc in Hin.
      destruct (truthy_path out); apply list_elem_of_In in Hin; simpl in Hin;
        intuition discriminate.
    + apply diarize_body_Raise_inv in Hb
        as [[_ ->]|[(Hc'&_)|[[-> _]|(d'&path&_&_&_&_&->)]]].
      * apply list_elem_of_In in Hin; simpl in Hin; intuition discriminate.
      * congruence.
      * unfold call_prefix in Hin. rewrite Hc in Hin.
        apply list_elem_of_In in Hin; simpl in Hin; intuition discriminate.
      * unfold call_prefix, failed_save_events in Hin. rewrite Hc in Hin.
        destruct (left_on_failure w path _); apply list_elem_of_In in Hin;
          simpl in Hin; intuition discriminate.
    + by apply diarize_body_no_exit in Hb.
Qed.

(** X12: without an accelerator the pipeline is never moved, and what
    [pipeline.to] would have done has no effect on the run. *)
Theorem no_accelerator_no_move float_repr f w argv :
  cuda_is_available w = false →
  run float_repr (with_to_error f w) argv = run float_repr w argv
  ∧ ∀ d, PipelineTo d ∉ trace (run float_repr w argv).
Proof.
  intros Hc. split.
  - apply run_ext; [done|done|done|]. intros audio mn mx.
    by apply diarize_body_no_cuda.
  - intros d.
    destruct (run_behaviour float_repr w argv)
      as [| | | | |a mn mx t e Hi Ha H3 H4 Hex Hb|a mn mx t r Hi Ha H3 H4 Hex Hb|];
      unfold trace.
    1-5,8: intros Hin%list_elem_of_In; simpl in Hin; intuition discriminate.
    + pose proof (proj2 (diarize_body_no_cuda float_repr f w a (argv !! 2%nat) mn mx Hc) d)
        as Hno.
      rewrite Hb in Hno. simpl in Hno.
      rewrite elem_of_cons, elem_of_app, list_elem_of_singleton.
      intros [[=]|[Hin|[=]]]. done.
    + pose proof (proj2 (diarize_body_no_cuda float_repr f w a (argv !! 2%nat) mn mx Hc) d)
        as Hno.
      rewrite Hb in Hno. simpl in Hno.
      rewrite elem_of_cons, elem_of_app.
      intros [[=]|[Hin|Hin]]; [done|].
      apply list_elem_of_In in Hin. simpl in Hin. intuition discriminate.
Qed.

Lemma no_accelerator_no_move_witness :
  cuda_is_available good_world = false
  ∧ run sample_repr (with_to_error (to_error gpu_failing_world) good_world)
      ["diarize_speakers.py"; "a.wav"]
    = run sample_repr good_world ["diarize_speakers.py"; "a.wav"].
Proof.
  split; [reflexivity|].
  exact (proj1 (no_accelerator_no_move sample_repr (to_error gpu_failing_world) good_world
                  ["diarize_speakers.py"; "a.wav"] eq_refl)).
Defined.

(** ** A run from end to end *)

Lemma run_success_trace float_repr w argv audio mn mx d :
  import_error w = None → argv !! 1%nat = Some audio →
  int_arg w argv 3 = ([], Ret mn) → int_arg w argv 4 = ([], Ret mx) →
  path_exists w audio = true →
  from_pretrained_error w = None →
  (cuda_is_available w = true → to_error w Cuda = None) →
  pipeline w (device_of w) audio (diarization_params mn mx) = inr d →
  itertracks_error d = None →
  (∀ path, truthy_path (argv !! 2%nat) = Some path →
     write_error w path
       (dump_indent2 float_repr
          (json_of_result (make_result audio (segment_of_track <$> itertracks d)))) = None) →
  run float_repr w argv
  = Process
      (PathExists audio
       :: (call_prefix w audio (diarization_params mn mx)
           ++ save_events (argv !! 2%nat)
                (dump_indent2 float_repr
                   (json_of_result (make_result audio (segment_of_track <$> itertracks d)))))
       ++ summary float_repr (make_result audio (segment_of_track <$> itertracks d))) 0.
Proof.
  intros Himp Ha H3 H4 Hex Hload Hto Hpipe Hiter Hwrite.
  rewrite (run_after_checks float_repr w argv audio mn mx) by done.
  rewrite diarize_body_after_load by done. simpl.
  rewrite Hpipe, Hiter.
  destruct (truthy_path (argv !! 2%nat)) as [path|] eqn:Hp; [|done].
  by rewrite (Hwrite path eq_refl).
Qed.

(** X13: when every step works the run ends with status 0 and its events
    come in this order: the existence check, the model load, the move to
    the accelerator if there is one, the line [Processing: ...], the
    pipeline call, the file write and the line [Saved diarization to: ...]
    if an output path was given, then the three summary lines on standard
    error with the speaker count and the number of tracks, and last the
    JSON text on standard output. *)
Theorem run_succeeds_when_every_step_works float_repr w argv audio mn mx d :
  import_error w = None → argv !! 1%nat = Some audio →
  int_arg w argv 3 = ([], Ret mn) → int_arg w argv 4 = ([], Ret mx) →
  path_exists w audio = true →
  from_pretrained_error w = None →
  (cuda_is_available w = true → to_error w Cuda = None) →
  pipeline w (device_of w) audio (diarization_params mn mx) = inr d →
  itertracks_error d = None →
  (∀ path, truthy_path (argv !! 2%nat) = Some path →
     write_error w path
       (dump_indent2 float_repr
          (json_of_result (make_result audio (segment_of_track <$> itertracks d)))) = None) →
  let r := make_result audio (segment_of_track <$> itertracks d) in
  exit_status (run float_repr w argv) = 0
  ∧ trace (run float_repr w argv)
    = [PathExists audio; FromPretrained model_name]
      ++ (if cuda_is_available w then [PipelineTo Cuda] else [])
      ++ [Stderr ("Processing: " +:+ audio);
          PipelineCall audio (diarization_params mn mx)]
      ++ match truthy_path (argv !! 2%nat) with
         | Some path =>
             [FileWrite path (dump_indent2 float_repr (json_of_result r));
              Stderr ("Saved diarization to: " +:+ path)]
         | None => []
         end
      ++ [Stderr (String newline "Diarization complete!");
          Stderr ("Detected " +:+ str_of_nat (num_speakers r) +:+ " speakers");
          Stderr ("Total segments: " +:+ str_of_nat (length (itertracks d)));
          Stdout (dumps float_repr (json_of_result r))].
Proof.
  intros Himp Ha H3 H4 Hex Hload Hto Hpipe Hiter Hwrite r.
  rewrite (run_success_trace float_repr w argv audio mn mx d) by done.
  split; [done|]. unfold trace, call_prefix, save_events, summary. fold r.
  replace (length (segments r)) with (length (itertracks d))
    by (subst r; simpl; by rewrite length_fmap).
  simpl. rewrite <- !app_assoc. done.
Qed.

Lemma run_succeeds_when_every_step_works_witness :
  write_error good_world "out.json"
    (dump_indent2 sample_repr
       (json_of_result (make_result "a.wav" (segment_of_track <$> sample_tracks)))) = None
  ∧ exit_status (run sample_repr good_world
                   ["diarize_speakers.py"; "a.wav"; "out.json"; "2"; "4"]) = 0.
Proof.
  split; [reflexivity|].
  exact (proj1 (run_succeeds_when_every_step_works sample_repr good_world
                  ["diarize_speakers.py"; "a.wav"; "out.json"; "2"; "4"] "a.wav"
                  (Some 2) (Some 4) (Annotation sample_tracks None)
                  eq_refl eq_refl eq_refl eq_refl eq_refl eq_refl
                  (λ H, eq_refl) eq_refl eq_refl (λ _ _, eq_refl))).
Defined.

Lemma dumps_empty_result float_repr audio :
  dumps float_repr (json_of_result (make_result audio []))
  = String "{" (String dquote "audio_file") +:+ String dquote ": "
    +:+ encode_basestring_ascii audio +:+ ", "
    +:+ String dquote "num_speakers" +:+ String dquote ": 0, "
    +:+ String dquote "segments" +:+ String dquote ": []}".
Proof.
  unfold make_result. rewrite (proj2 (count_speakers_zero []) eq_refl).
  unfold dumps, json_of_result. cbn -[String.append encode_basestring_ascii].
  rewrite !append_assoc. reflexivity.
Qed.

(** X14: a diarization without any track is a success: the status is 0,
    the summary reports 0 speakers and 0 segments, and the JSON text on
    standard output has an empty [segments] list. *)
Theorem empty_diarization_is_a_success float_repr w argv audio mn mx :
  import_error w = None → argv !! 1%nat = Some audio →
  int_arg w argv 3 = ([], Ret mn) → int_arg w argv 4 = ([], Ret mx) →
  path_exists w audio = true →
  from_pretrained_error w = None →
  (cuda_is_available w = true → to_error w Cuda = None) →
  pipeline w (device_of w) audio (diarization_params mn mx) = inr (Annotation [] None) →
  (∀ path text, truthy_path (argv !! 2%nat) = Some path → write_error w path text = None) →
  exit_status (run float_repr w argv) = 0
  ∧ stdout_of (trace (run float_repr w argv))
    = [ String "{" (String dquote "audio_file") +:+ String dquote ": "
        +:+ encode_basestring_ascii audio +:+ ", "
        +:+ String dquote "num_speakers" +:+ String dquote ": 0, "
        +:+ String dquote "segments" +:+ String dquote ": []}" ]
  ∧ Stderr "Detected 0 speakers" ∈ trace (run float_repr w argv)
  ∧ Stderr "Total segments: 0" ∈ trace (run float_repr w argv).
Proof.
  intros Himp Ha H3 H4 Hex Hload Hto Hpipe Hwrite.
  rewrite (run_success_trace float_repr w argv audio mn mx (Annotation [] None));
    [|done..|by auto]. unfold trace, exit_status.
  change (PathExists audio :: ?a ++ ?b) with ([PathExists audio] ++ a ++ b).
  split; [done|]. split.
  - rewrite !stdout_of_app, stdout_of_call_prefix, stdout_of_save_events.
    change (stdout_of [PathExists audio]) with (@nil string).
    change (stdout_of (summary float_repr ?r)) with [dumps float_repr (json_of_result r)].
    change (make_result audio _) with (make_result audio []).
    by rewrite dumps_empty_result.
  - split; apply elem_of_app; right; apply elem_of_app; right.
    + right. left.
    + do 2 right. left.
Qed.

Lemma empty_diarization_is_a_success_witness :
  pipeline silent_world (device_of silent_world) "quiet.wav" (diarization_params None None)
  = inr (Annotation [] None)
  ∧ exit_status (run sample_repr silent_world ["diarize_speakers.py"; "quiet.wav"]) = 0
  ∧ Stderr "Detected 0 speakers"
      ∈ trace (run sample_repr silent_world ["diarize_speakers.py"; "quiet.wav"]).
Proof.
  split; [reflexivity|].
  pose proof (empty_diarization_is_a_success sample_repr silent_world
                ["diarize_speakers.py"; "quiet.wav"] "quiet.wav" None None
                eq_refl eq_refl eq_refl eq_refl eq_refl eq_refl
                (λ _, eq_refl) eq_refl (λ _ _ _, eq_refl)) as (H0&_&H1&_).
  split; [exact H0|exact H1].
Defined.

(** ** Failures inside [diarize_audio] *)

Lemma diarize_body_load_error float_repr w audio out mn mx e :
  from_pretrained_error w = Some e →
  diarize_body float_repr w audio out mn mx = ([FromPretrained model_name], Raise e).
Proof. intros H. unfold diarize_body. io_unfold. by rewrite H. Qed.

(** X15: when loading the model raises, the run stops there: after the
    existence check and the load attempt it prints
    [ERROR: Diarization failed: ...] and exits with status 1.  The
    accelerator is not looked at, the line [Processing: ...] is not
    printed and the pipeline is not called. *)
Theorem load_failure_stops_before_pipeline float_repr w argv audio mn mx e :
  import_error w = None → argv !! 1%nat = Some audio →
  int_arg w argv 3 = ([], Ret mn) → int_arg w argv 4 = ([], Ret mx) →
  path_exists w audio = true →
  from_pretrained_error w = Some e →
  run float_repr w argv
  = Process [PathExists audio; FromPretrained model_name;
             Stderr ("ERROR: Diarization failed: " +:+ exc_str e)] 1.
Proof.
  intros Himp Ha H3 H4 Hex Hload.
  rewrite (run_after_checks float_repr w argv audio mn mx) by done.
  by rewrite (diarize_body_load_error float_repr w audio _ mn mx e Hload).
Qed.

Lemma load_failure_stops_before_pipeline_witness :
  from_pretrained_error offline_world = Some (PyExc OSError "Connection error")
  ∧ run sample_repr offline_world ["diarize_speakers.py"; "a.wav"; "out.json"]
    = Process [PathExists "a.wav"; FromPretrained model_name;
               Stderr "ERROR: Diarization failed: Connection error"] 1.
Proof.
  split; [reflexivity|].
  exact (load_failure_stops_before_pipeline sample_repr offline_world
           ["diarize_speakers.py"; "a.wav"; "out.json"] "a.wav" None None
           (PyExc OSError "Connection error")
           eq_refl eq_refl eq_refl eq_refl eq_refl eq_refl).
Defined.

(** X16: when the iteration over the tracks raises, the tracks already
    yielded are lost: the run reports [ERROR: Diarization failed: ...],
    exits with status 1, prints no JSON and writes no file, whatever the
    tracks were. *)
Theorem iteration_failure_discards_tracks float_repr w argv audio mn mx d e :
  import_error w = None → argv !! 1%nat = Some audio →
  int_arg w argv 3 = ([], Ret mn) → int_arg w argv 4 = ([], Ret mx) →
  path_exists w audio = true →
  from_pretrained_error w = None →
  (cuda_is_available w = true → to_error w Cuda = None) →
  pipeline w (device_of w) audio (diarization_params mn mx) = inr d →
  itertracks_error d = Some e →
  run float_repr w argv
  = Process (PathExists audio :: call_prefix w audio (diarization_params mn mx)
             ++ [Stderr ("ERROR: Diarization failed: " +:+ exc_str e)]) 1
  ∧ stdout_of (trace (run float_repr w argv)) = []
  ∧ files_written (trace (run float_repr w argv)) = [].
Proof.
  intros Himp Ha H3 H4 Hex Hload Hto Hpipe Hiter.
  assert (run float_repr w argv
          = Process (PathExists audio :: call_prefix w audio (diarization_params mn mx)
                     ++ [Stderr ("ERROR: Diarization failed: " +:+ exc_str e)]) 1) as ->.
  { rewrite (run_after_checks float_repr w argv audio mn mx) by done.
    rewrite diarize_body_after_load by done. simpl. by rewrite Hpipe, Hiter. }
  split; [done|]. unfold trace.
  change (PathExists audio :: ?a ++ ?b) with ([PathExists audio] ++ a ++ b).
  by rewrite !stdout_of_app, !files_written_app, stdout_of_call_prefix,
    files_written_call_prefix.
Qed.

Lemma iteration_failure_discards_tracks_witness :
  itertracks_error (Annotation sample_tracks (Some (PyExc RuntimeError "iteration failed")))
  = Some (PyExc RuntimeError "iteration failed")
  ∧ exit_status (run sample_repr breaking_world ["diarize_speakers.py"; "a.wav"; "o.json"]) = 1
  ∧ stdout_of (trace (run sample_repr breaking_world
                        ["diarize_speakers.py"; "a.wav"; "o.json"])) = []
  ∧ files_written (trace (run sample_repr breaking_world
                            ["diarize_speakers.py"; "a.wav"; "o.json"])) = [].
Proof.
  split; [reflexivity|].
  pose proof (iteration_failure_discards_tracks sample_repr breaking_world
                ["diarize_speakers.py"; "a.wav"; "o.json"] "a.wav" None None
                (Annotation sample_tracks (Some (PyExc RuntimeError "iteration failed")))
                (PyExc RuntimeError "iteration failed")
                eq_refl eq_refl eq_refl eq_refl eq_refl eq_refl
                (λ _, eq_refl) eq_refl eq_refl) as (Hrun&Hout&Hfile).
  split; [by rewrite Hrun|]. split; [exact Hout|exact Hfile].
Defined.

(** ** The import guard *)

(** X17: when the imports raise, [main] never runs, so the arguments play
    no part, not even their number: an [ImportError] gives the install
    hint on standard error, any other exception the interpreter's
    traceback, and the status is 1 either way. *)
Theorem import_error_stops_before_main float_repr w argv e :
  import_error w = Some e →
  run float_repr w argv
  = Process [if is_ImportError e then Stderr import_message else Traceback e] 1.
Proof.
  intros H. unfold run, script. rewrite H. by destruct (is_ImportError e).
Qed.

Lemma import_error_stops_before_main_witness :
  import_error bare_world = Some (PyExc ModuleNotFoundError "No module named 'pyannote'")
  ∧ run sample_repr bare_world []
    = Process [Stderr import_message] 1.
Proof.
  split; [reflexivity|].
  exact (import_error_stops_before_main sample_repr bare_world []
           (PyExc ModuleNotFoundError "No module named 'pyannote'") eq_refl).
Defined.
